(** * The Ledger wallet subprovider, embedded and verified

    Shallow embedding of [src/subproviders/ledger_wallet.ts]: the
    [LedgerWallet] class (configuration, [getAccountsAsync],
    [signTransactionAsync], [signPersonalMessageAsync], [findAddressIndex],
    [testConnection] and the path setters), followed by the properties the
    specification states about it.

    Conventions of the embedding
    - JavaScript strings are [string] (the addresses, paths and hex strings
      handled here are ASCII).
    - JavaScript numbers that the wallet computes with are integers; they are
      [Z] (or [N] for the path index, which the data model keeps >= 0), and
      [NaN] is explicit in [Js.number] where the code can produce it.
    - A [Buffer] is a [list byte].
    - [async]/[await] is sequential: a device call is a step of a state and
      exception monad whose state is the log of requests sent to the device
      and the log of callback invocations.
    - The callback is the host's continuation: invoking it records its
      arguments and returns normally. *)

From Stdlib Require Import ZArith NArith Lia Ascii String List Bool.
From Stdlib.Strings Require Import Byte.
From Stdlib Require DecimalString HexadecimalString.
From stdpp Require Import base list strings.

Local Open Scope string_scope.
Local Open Scope list_scope.

(** ** JavaScript and Node primitives used by the wallet *)

Module Js.

(** [String.prototype.toLowerCase], on ASCII. *)
Definition lower_ascii (c : ascii) : ascii :=
  let n := N_of_ascii c in
  if ((65 <=? n) && (n <=? 90))%N then ascii_of_N (n + 32) else c.

Fixpoint toLowerCase (s : string) : string :=
  match s with
  | EmptyString => EmptyString
  | String c s' => String (lower_ascii c) (toLowerCase s')
  end.

(** A number as the wallet meets it: an integer or [NaN]. *)
Inductive number : Type :=
| NaN
| Int (z : Z).

(** [a - k] for an integer literal [k]. *)
Definition minus (a : number) (k : Z) : number :=
  match a with
  | NaN => NaN
  | Int z => Int (z - k)
  end.

(** [Math.floor(a / 2)]. *)
Definition floor_half (a : number) : number :=
  match a with
  | NaN => NaN
  | Int z => Int (z / 2)
  end.

(** [a !== b] on numbers: [NaN] differs from everything, itself included. *)
Definition strict_neq (a b : number) : bool :=
  match a, b with
  | Int x, Int y => negb (x =? y)%Z
  | _, _ => true
  end.

(** [String(n)] for an integer, as a template literal renders it. *)
Definition string_of_N (n : N) : string :=
  DecimalString.NilZero.string_of_uint (N.to_uint n).

Definition string_of_Z (z : Z) : string :=
  DecimalString.NilZero.string_of_int (Z.to_int z).

(** [Number.prototype.toString(16)]: sign, then lower-case hex digits. *)
Definition toString16 (a : number) : string :=
  match a with
  | NaN => "NaN"
  | Int z => HexadecimalString.NilZero.string_of_int (Z.to_hex_int z)
  end.

(** Template rendering [`${a}`] of a number. *)
Definition toString10 (a : number) : string :=
  match a with
  | NaN => "NaN"
  | Int z => string_of_Z z
  end.

(** Leading white space skipped by [parseInt] (ASCII part). *)
Definition is_space (c : ascii) : bool :=
  let n := N_of_ascii c in
  ((n =? 32) || ((9 <=? n) && (n <=? 13)))%N.

Fixpoint trimStart (s : string) : string :=
  match s with
  | EmptyString => EmptyString
  | String c s' => if is_space c then trimStart s' else s
  end.

(** Value of a hexadecimal digit, either case. *)
Definition hex_val (c : ascii) : option N :=
  let n := N_of_ascii c in
  if ((48 <=? n) && (n <=? 57))%N then Some (n - 48)%N
  else if ((97 <=? n) && (n <=? 102))%N then Some (n - 87)%N
  else if ((65 <=? n) && (n <=? 70))%N then Some (n - 55)%N
  else None.

Definition digit_val (radix : N) (c : ascii) : option N :=
  match hex_val c with
  | Some d => if (d <? radix)%N then Some d else None
  | None => None
  end.

(** Longest prefix of digits of the radix; [None] when it is empty. *)
Fixpoint parse_digits (radix : N) (s : string) (acc : option N) : option N :=
  match s with
  | EmptyString => acc
  | String c s' =>
      match digit_val radix c with
      | Some d =>
          parse_digits radix s'
            (Some (radix * (match acc with Some a => a | None => 0 end) + d)%N)
      | None => acc
      end
  end.

(** [_.parseInt(s)] (lodash: trim, then the native [parseInt] with radix 0,
    that is decimal unless the text starts with [0x] or [0X]). A number
    passed instead of a string is first rendered in decimal. *)
Definition parseInt (s : string) : number :=
  let s0 := trimStart s in
  let '(sign, s1) :=
    match s0 with
    | String "-" r => ((-1)%Z, r)
    | String "+" r => (1%Z, r)
    | _ => (1%Z, s0)
    end in
  let '(radix, s2) :=
    match s1 with
    | String "0" (String "x" r) => (16%N, r)
    | String "0" (String "X" r) => (16%N, r)
    | _ => (10%N, s1)
    end in
  match parse_digits radix s2 None with
  | Some m => Int (sign * Z.of_N m)
  | None => NaN
  end.

(** Node buffers. *)
Abbreviation Buffer := (list byte) (only parsing).

Definition byte_of_N (n : N) : byte :=
  match Byte.of_N (n mod 256) with
  | Some b => b
  | None => x00
  end.

(** The element conversion of [Buffer.from([n])]: [n] modulo 256. *)
Definition byte_of_Z (z : Z) : byte := byte_of_N (Z.to_N (z mod 256)).

(** [Buffer.from([n])]. *)
Definition Buffer_from_array1 (n : Z) : Buffer := [byte_of_Z n].

(** [Buffer.from(s, 'hex')]: pairs of hex digits, up to the first pair that
    is not one. *)
Fixpoint Buffer_from_hex (s : string) : Buffer :=
  match s with
  | String c1 (String c2 s') =>
      match hex_val c1, hex_val c2 with
      | Some h, Some l => byte_of_N (16 * h + l) :: Buffer_from_hex s'
      | _, _ => []
      end
  | _ => []
  end.

Definition hex_digit (n : N) : ascii :=
  if (n <? 10)%N then ascii_of_N (48 + n) else ascii_of_N (87 + n).

(** [buf.toString('hex')]. *)
Fixpoint Buffer_toString_hex (b : Buffer) : string :=
  match b with
  | [] => EmptyString
  | x :: b' =>
      let n := Byte.to_N x in
      String (hex_digit (n / 16)) (String (hex_digit (n mod 16)) (Buffer_toString_hex b'))
  end.

(** [buf[0]] read as a number: [undefined] behaves as [NaN] in arithmetic. *)
Definition Buffer_first (b : Buffer) : number :=
  match b with
  | [] => NaN
  | x :: _ => Int (Z.of_N (Byte.to_N x))
  end.

(** [ethUtil.stripHexPrefix]. *)
Definition stripHexPrefix (s : string) : string :=
  match s with
  | String "0" (String "x" r) => r
  | _ => s
  end.

End Js.

(** ** The device capability *)

(** A thrown or reported JavaScript [Error], by its message. *)
Inductive JsError : Type :=
| Error (message : string).

Module AddressResult.
Record t : Type := { address : string }.
End AddressResult.

(** The [{r, s, v}] object a signing request resolves to. For a transaction
    the three fields are hex strings; for a personal message [v] is the
    recovery number (a number is carried as its decimal rendering, which is
    what [_.parseInt] makes of it). *)
Module Signature.
Record t : Type := { r : string; s : string; v : string }.
End Signature.

(** What the wallet can ask of the device. *)
Inductive DeviceRequest : Type :=
| GetAddress (path : string) (askForConfirmation shouldGetChainCode : bool)
| SignTransaction (path txHex : string)
| SignPersonalMessage (path msgHex : string).

(** Modelled from the spec: [ledger_eth_connection.ts] is not among the
    sources; section 6 of the specification gives its contract, three
    asynchronous operations keyed by derivation path, each of which may
    fail. The first argument is the sequence of requests the device has
    already served, so that a device may answer the same request
    differently over time; [inl] is a rejected promise, [inr] a resolved
    one. *)
Record LedgerEthConnection : Type := {
  getAddress_async :
    list DeviceRequest -> string -> bool -> bool -> JsError + AddressResult.t;
  signTransaction_async :
    list DeviceRequest -> string -> string -> JsError + Signature.t;
  signPersonalMessage_async :
    list DeviceRequest -> string -> string -> JsError + Signature.t
}.

(** ** Asynchronous computations

    The observable state: the requests sent to the device so far and the
    invocations [callback(err, result)] made so far ([None] is
    [undefined]). *)

Record World (R : Type) : Type := {
  requests : list DeviceRequest;
  callbacks : list (option JsError * option R)
}.
Arguments requests {R} _.
Arguments callbacks {R} _.

Definition Async (R A : Type) : Type := World R -> (JsError + A) * World R.

Definition ret {R A} (a : A) : Async R A := fun w => (inr a, w).

Definition bind {R A B} (m : Async R A) (k : A -> Async R B) : Async R B :=
  fun w =>
    match m w with
    | (inr a, w') => k a w'
    | (inl e, w') => (inl e, w')
    end.

Definition throw {R A} (e : JsError) : Async R A := fun w => (inl e, w).

(** [try { m } catch (err) { h err }] *)
Definition try_catch {R A} (m : Async R A) (h : JsError -> Async R A) : Async R A :=
  fun w =>
    match m w with
    | (inl e, w') => h e w'
    | done => done
    end.

Notation "x <-- m ;; k" := (bind m (fun x => k))
  (at level 100, m at next level, right associativity).

(** Sending one request: it is appended to the log and the promise settles
    as the device decides. *)
Definition sent {R} (q : DeviceRequest) (w : World R) : World R :=
  {| requests := requests w ++ [q]; callbacks := callbacks w |}.

Definition await_getAddress {R} (c : LedgerEthConnection)
    (path : string) (ask chain : bool) : Async R AddressResult.t :=
  fun w => (getAddress_async c (requests w) path ask chain,
            sent (GetAddress path ask chain) w).

Definition await_signTransaction {R} (c : LedgerEthConnection)
    (path txHex : string) : Async R Signature.t :=
  fun w => (signTransaction_async c (requests w) path txHex,
            sent (SignTransaction path txHex) w).

Definition await_signPersonalMessage {R} (c : LedgerEthConnection)
    (path msgHex : string) : Async R Signature.t :=
  fun w => (signPersonalMessage_async c (requests w) path msgHex,
            sent (SignPersonalMessage path msgHex) w).

(** [callback(err, result)] *)
Definition callback {R} (err : option JsError) (result : option R) : Async R unit :=
  fun w => (inr tt,
            {| requests := requests w; callbacks := callbacks w ++ [(err, result)] |}).

(** ** The wallet *)

Definition DEFAULT_DERIVATION_PATH : string := "44'/60'/0'".
Definition NUM_ADDRESSES_TO_FETCH : nat := 2.
Definition ASK_FOR_ON_DEVICE_CONFIRMATION : bool := false.
Definition SHOULD_GET_CHAIN_CODE : bool := false.

(** Modelled from the spec: [types.ts] is not among the sources; the
    configuration object and the message parameters are as section 4.1 and
    section 6 of the specification list them. An absent optional field is
    [None]. *)
Record LedgerSubproviderConfigs : Type := {
  networkId : Z;
  ledgerConnection : LedgerEthConnection;
  derivationPath : option string;
  shouldAskForOnDeviceConfirmation : option bool;
  derivationPathIndex : option N
}.

Record SignPersonalMessageParams : Type := {
  data : string;
  from : option string
}.

Record LedgerWallet : Type := {
  _network : Z;
  _derivationPath : string;
  _derivationPathIndex : N;
  _ledgerEthConnection : LedgerEthConnection;
  _shouldAlwaysAskForConfirmation : bool;
  _shouldGetChainCode : bool
}.

(** [x || d] on an optional string: [undefined] and the empty string are
    falsy. *)
Definition or_string (x : option string) (d : string) : string :=
  match x with
  | Some EmptyString | None => d
  | Some p => p
  end.

Definition or_bool (x : option bool) (d : bool) : bool :=
  match x with
  | Some true => true
  | _ => d
  end.

Definition or_index (x : option N) (d : N) : N :=
  match x with
  | Some 0%N | None => d
  | Some n => n
  end.

(** The constructor. The three public slots [getAccounts], [signMessage]
    and [signTransaction] hold the methods bound to the object itself, so
    calling a slot is calling the method on the wallet's current state. *)
Definition new_LedgerWallet (config : LedgerSubproviderConfigs) : LedgerWallet :=
  {| _network := networkId config;
     _ledgerEthConnection := ledgerConnection config;
     _derivationPath := or_string (derivationPath config) DEFAULT_DERIVATION_PATH;
     _shouldAlwaysAskForConfirmation :=
       or_bool (shouldAskForOnDeviceConfirmation config) ASK_FOR_ON_DEVICE_CONFIRMATION;
     _derivationPathIndex := or_index (derivationPathIndex config) 0;
     _shouldGetChainCode := SHOULD_GET_CHAIN_CODE |}.

Definition getPath (this : LedgerWallet) : string := _derivationPath this.

(** [`${a}/${n}`] *)
Definition path_of (base : string) (n : N) : string :=
  base +:+ "/" +:+ Js.string_of_N n.

Definition getDerivationPath (this : LedgerWallet) : string :=
  path_of (getPath this) (_derivationPathIndex this).

Definition setPath (derivationPath : string) (this : LedgerWallet) : LedgerWallet :=
  {| _network := _network this;
     _derivationPath := derivationPath;
     _derivationPathIndex := _derivationPathIndex this;
     _ledgerEthConnection := _ledgerEthConnection this;
     _shouldAlwaysAskForConfirmation := _shouldAlwaysAskForConfirmation this;
     _shouldGetChainCode := _shouldGetChainCode this |}.

Definition setPathIndex (pathIndex : N) (this : LedgerWallet) : LedgerWallet :=
  {| _network := _network this;
     _derivationPath := _derivationPath this;
     _derivationPathIndex := pathIndex;
     _ledgerEthConnection := _ledgerEthConnection this;
     _shouldAlwaysAskForConfirmation := _shouldAlwaysAskForConfirmation this;
     _shouldGetChainCode := _shouldGetChainCode this |}.

Definition isSupported (this : LedgerWallet) : Async bool unit :=
  callback None (Some true).

(** The configured address request at [`${this._derivationPath}/${n}`]. *)
Definition fetchAddress {R} (this : LedgerWallet) (n : N) : Async R AddressResult.t :=
  await_getAddress (_ledgerEthConnection this)
    (path_of (_derivationPath this) n)
    (_shouldAlwaysAskForConfirmation this) (_shouldGetChainCode this).

(** The same request as an entry of the log, and the device's answer to it
    after it has served [served]. *)
Definition addressRequest (this : LedgerWallet) (n : N) : DeviceRequest :=
  GetAddress (path_of (_derivationPath this) n)
    (_shouldAlwaysAskForConfirmation this) (_shouldGetChainCode this).

Definition addressAnswer (this : LedgerWallet) (served : list DeviceRequest) (n : N)
  : JsError + AddressResult.t :=
  getAddress_async (_ledgerEthConnection this) served
    (path_of (_derivationPath this) n)
    (_shouldAlwaysAskForConfirmation this) (_shouldGetChainCode this).

(** [getAccountsAsync]: the loop [for (i; i < NUM_ADDRESSES_TO_FETCH; i++)]
    with [todo] iterations left, then the final [callback]. *)
Fixpoint getAccounts_loop (this : LedgerWallet) (todo : nat) (i : N)
    (accounts : list string) : Async (list string) unit :=
  match todo with
  | O => callback None (Some accounts)
  | S todo' =>
      fun w =>
        match fetchAddress this (i + _derivationPathIndex this) w with
        | (inr result, w') =>
            getAccounts_loop this todo' (i + 1)
              (accounts ++ [Js.toLowerCase (AddressResult.address result)]) w'
        | (inl err, w') => callback (Some err) None w'
        end
  end.

Definition getAccountsAsync (this : LedgerWallet) : Async (list string) unit :=
  getAccounts_loop this NUM_ADDRESSES_TO_FETCH 0 [].

(** [findAddressIndex]: the loop [for (i; i < maxTries; i++)] with [todo]
    iterations left; the [catch] re-throws. *)
Fixpoint findAddressIndex_loop {R} (this : LedgerWallet) (address : string)
    (todo : nat) (i : N) : Async R N :=
  match todo with
  | O => throw (Error "Exhasuted max tries searching for address")
  | S todo' =>
      result <-- try_catch
                   (fetchAddress this (i + _derivationPathIndex this))
                   (fun err => throw err) ;;
      if String.eqb (Js.toLowerCase address)
                    (Js.toLowerCase (AddressResult.address result))
      then ret i
      else findAddressIndex_loop this address todo' (i + 1)
  end.

Definition findAddressIndex {R} (this : LedgerWallet) (address : string)
    (maxTries : nat) : Async R N :=
  findAddressIndex_loop this address maxTries 0.

(** Lines 147-151: the recovery number, less 27, as text. *)
Definition normalizedV (recovery : string) : string :=
  let v := Js.minus (Js.parseInt recovery) 27 in
  let vHex := Js.toString16 v in
  if (String.length vHex <? 2)%nat then "0" +:+ Js.toString10 v else vHex.

(** Line 152. *)
Definition messageSignature (result : Signature.t) : string :=
  "0x" +:+ Signature.r result +:+ Signature.s result
       +:+ normalizedV (Signature.v result).

(** Lines 135-139: the index the message is signed at. *)
Definition resolveAddressIndex (this : LedgerWallet)
    (msgParams : SignPersonalMessageParams) : Async string N :=
  match from msgParams with
  | Some sender => findAddressIndex this sender 10
  | None => ret 0%N
  end.

Definition signPersonalMessageAsync (this : LedgerWallet)
    (msgParams : SignPersonalMessageParams) : Async string unit :=
  try_catch
    (addressIndex <-- resolveAddressIndex this msgParams ;;
     let derivationPath := path_of (_derivationPath this) addressIndex in
     _address <-- await_getAddress (_ledgerEthConnection this) derivationPath
                    (_shouldAlwaysAskForConfirmation this) (_shouldGetChainCode this) ;;
     result <-- await_signPersonalMessage (_ledgerEthConnection this) derivationPath
                  (Js.stripHexPrefix (data msgParams)) ;;
     callback None (Some (messageSignature result)))
    (fun err => callback (Some err) None).

(** [signTransactionAsync]. The transaction library (ethereumjs-tx) is
    outside the repository: [EthereumTx_new] is the array [tx.raw] that
    [new EthereumTx(txParams)] builds (nonce, gasPrice, gasLimit, to, value,
    data, v, r, s), for parameters the library accepts, and [serialize] is
    [tx.serialize()] on that array. The accessors [tx.v], [tx.r], [tx.s]
    read and store slots 6, 7 and 8; the setters of [tx.r] and [tx.s] drop
    leading zero bytes and refuse more than 32 bytes. *)
Section EthereumTx.

Variable TxParams : Type.
Variable EthereumTx_new : TxParams -> list Js.Buffer.
Variable serialize : list Js.Buffer -> Js.Buffer.

Definition tx_v (raw : list Js.Buffer) : Js.Buffer := default [] (raw !! 6%nat).

(** Lines 100-107: the transaction sent for signature. *)
Definition unsignedTx (this : LedgerWallet) (txParams : TxParams) : list Js.Buffer :=
  let tx := EthereumTx_new txParams in
  let tx := <[6%nat := Js.Buffer_from_array1 (_network this)]> tx in
  let tx := <[7%nat := []]> tx in
  <[8%nat := []]> tx.

(** The library's [stripZeros]: a buffer without its leading zero bytes. *)
Fixpoint stripZeros (b : list byte) : list byte :=
  match b with
  | [] => []
  | x :: b' => if Byte.eqb x x00 then stripZeros b' else b
  end.

(** The setter the library defines for [tx.r] and for [tx.s], fields of
    length 32 that may be shorter: the value loses its leading zero bytes,
    and an assertion fails when more than 32 bytes remain. *)
Definition setSignatureField (name : string) (slot : nat) (value : list byte)
    (raw : list Js.Buffer) : JsError + list Js.Buffer :=
  let v := stripZeros value in
  if (length v <=? 32)%nat
  then inr (<[slot := v]> raw)
  else inl (Error ("The field " +:+ name +:+ " must not have more 32 bytes")).

(** Lines 112-114: the signature stored in the transaction, [r] first; the
    setter of [tx.v] stores the buffer as it is. A failed assertion is
    thrown inside the [try]. *)
Definition storeSignature (result : Signature.t) (tx : list Js.Buffer)
  : JsError + list Js.Buffer :=
  match setSignatureField "r" 7 (Js.Buffer_from_hex (Signature.r result)) tx with
  | inl err => inl err
  | inr tx =>
      match setSignatureField "s" 8 (Js.Buffer_from_hex (Signature.s result)) tx with
      | inl err => inl err
      | inr tx => inr (<[6%nat := Js.Buffer_from_hex (Signature.v result)]> tx)
      end
  end.

(** Line 117. *)
Definition signedChainId (tx : list Js.Buffer) : Js.number :=
  Js.floor_half (Js.minus (Js.Buffer_first (tx_v tx)) 35).

Definition signTransactionAsync (this : LedgerWallet) (txParams : TxParams)
  : Async string unit :=
  let tx := unsignedTx this txParams in
  let txHex := Js.Buffer_toString_hex (serialize tx) in
  try_catch
    (let derivationPath := getDerivationPath this in
     result <-- await_signTransaction (_ledgerEthConnection this) derivationPath txHex ;;
     match storeSignature result tx with
     | inl err => throw err
     | inr tx =>
         if Js.strict_neq (signedChainId tx) (Js.Int (_network this))
         then callback (Some (Error "TOO_OLD_LEDGER_FIRMWARE")) None
         else
           let signedTxHex := "0x" +:+ Js.Buffer_toString_hex (serialize tx) in
           callback None (Some signedTxHex)
     end)
    (fun err => callback (Some err) None).

(** Line 100 stands before the [try]: [new EthereumTx(..)] throws on
    parameters the library refuses, and the promise of the call is then
    rejected. [HostParams] is what the host may pass and
    [EthereumTx_accepts] the library's verdict on it: the parameters it
    takes in, or the error it throws. [signTransaction] is the public slot
    as the host calls it. *)
Variable HostParams : Type.
Variable EthereumTx_accepts : HostParams -> JsError + TxParams.

Definition signTransaction (this : LedgerWallet) (hostParams : HostParams)
  : Async string unit :=
  match EthereumTx_accepts hostParams with
  | inl err => throw err
  | inr txParams => signTransactionAsync this txParams
  end.

End EthereumTx.

(** [testConnection]. The call sends the address request for
    [`${this._derivationPath}/0`] and arms the timer; the two promises then
    settle in some order, each running its handler
    [(locked || callback(..)); locked = true] to completion. *)
Record ConnectionTest : Type := {
  locked : bool;
  connectionPromise : JsError + AddressResult.t;
  timeout_ms : Z
}.

Inductive Settlement : Type :=
| ConnectionSettles
| TimeoutElapses.

Definition testConnection (this : LedgerWallet) (timeout : Z) (w : World bool)
  : ConnectionTest * World bool :=
  let derivationPath := _derivationPath this +:+ "/0" in
  ({| locked := false;
      connectionPromise :=
        getAddress_async (_ledgerEthConnection this) (requests w) derivationPath false false;
      timeout_ms := timeout |},
   sent (GetAddress derivationPath false false) w).

(** [(locked || callback(err, connected)); locked = true] *)
Definition report (err : option JsError) (connected : bool)
    (st : ConnectionTest * World bool) : ConnectionTest * World bool :=
  let '(t, w) := st in
  ({| locked := true;
      connectionPromise := connectionPromise t;
      timeout_ms := timeout_ms t |},
   if locked t then w else snd (callback err (Some connected) w)).

Definition settle (st : ConnectionTest * World bool) (e : Settlement)
  : ConnectionTest * World bool :=
  match e with
  | ConnectionSettles =>
      match connectionPromise (fst st) with
      | inr _ => report None true st
      | inl err => report (Some err) false st
      end
  | TimeoutElapses => report None false st
  end.

Definition testConnection_run (this : LedgerWallet) (timeout : Z)
    (schedule : list Settlement) (w : World bool) : ConnectionTest * World bool :=
  fold_left settle schedule (testConnection this timeout w).

(** [ledgerWalletSubproviderFactory], up to the wrapping in the host's
    hooked-wallet object. *)
Definition ledgerWalletSubproviderFactory (ledgerEthConnection : LedgerEthConnection)
    (network : Z) : LedgerWallet :=
  new_LedgerWallet
    {| networkId := network;
       ledgerConnection := ledgerEthConnection;
       derivationPath := None;
       shouldAskForOnDeviceConfirmation := None;
       derivationPathIndex := None |}.

(** The state before any call. *)
Definition fresh {R} : World R := {| requests := []; callbacks := [] |}.

(** ** Sample devices and transactions *)

(** A device holding one address per index under the default path; the
    addresses are in checksum (mixed) case, as devices report them. *)
Definition sampleAddresses : list string :=
  [ "0x5409ED021D9299bf6814279A6A1411A7e866A631";
    "0x6Ecbe1DB9EF729CBe972C83Fb886247691Fb6beb";
    "0xE36Ea790bc9d7AB70C55260C66D52b1eca985f84";
    "0xE834EC434DABA538cd1b9Fe1582052B880BD7e63";
    "0x78dc5D2D739606d31509C31d654056A45185ECb6";
    "0xA8dDa8d7F5310E4A9E24F8eBA77E091Ac264f872";
    "0x06cEf8E666768cC40Cc78CF93d9611019dDcB628";
    "0x4404ac8bd8F9618D27Ad2f1485AA1B2cFD82482D";
    "0x7457d5E02197480Db681D3fdF256c7acA21bDc12";
    "0x91c987bf62D25945dB517BDAa840A6c661374402";
    "0x1dC4c1cEFEF38a777b15aA20260a54E584b16C48";
    "0x1D1db3f7e4E51c0F9B0E7fA9c5e3C5d5bE5c5b5A" ].

Fixpoint lookupPath (base : string) (i : N) (table : list string) (path : string)
  : option string :=
  match table with
  | [] => None
  | a :: table' =>
      if String.eqb path (path_of base i) then Some a
      else lookupPath base (i + 1) table' path
  end.

Definition sampleSignature : Signature.t :=
  {| Signature.r := "9242685bf161793cc25603c231bc2f568eb630ea16aa137d2664ac8038825608";
     Signature.s := "4f8ae3bd7535248d0bd448298cc2e2071e56992d0774dc340c368ae950852ada";
     Signature.v := "25" |}.

Definition sampleMessageSignature : Signature.t :=
  {| Signature.r := "9242685bf161793cc25603c231bc2f568eb630ea16aa137d2664ac8038825608";
     Signature.s := "4f8ae3bd7535248d0bd448298cc2e2071e56992d0774dc340c368ae950852ada";
     Signature.v := "28" |}.

(** The sample device, answering personal-message requests with the
    recovery number [recovery]. *)
Definition sampleDeviceReporting (recovery : string) : LedgerEthConnection :=
  {| getAddress_async := fun _ path _ _ =>
       match lookupPath DEFAULT_DERIVATION_PATH 0 sampleAddresses path with
       | Some a => inr {| AddressResult.address := a |}
       | None => inl (Error "unknown derivation path")
       end;
     signTransaction_async := fun _ _ _ => inr sampleSignature;
     signPersonalMessage_async := fun _ _ _ =>
       inr {| Signature.r := Signature.r sampleMessageSignature;
              Signature.s := Signature.s sampleMessageSignature;
              Signature.v := recovery |} |}.

Definition sampleDevice : LedgerEthConnection :=
  sampleDeviceReporting (Signature.v sampleMessageSignature).

(** A device that is unplugged after serving [n] requests. *)
Definition unpluggedAfter (n : nat) : LedgerEthConnection :=
  {| getAddress_async := fun served path ask chain =>
       if (length served <? n)%nat
       then getAddress_async sampleDevice served path ask chain
       else inl (Error "Ledger device: disconnected");
     signTransaction_async := fun served path tx =>
       if (length served <? n)%nat
       then signTransaction_async sampleDevice served path tx
       else inl (Error "Ledger device: disconnected");
     signPersonalMessage_async := fun served path msg =>
       if (length served <? n)%nat
       then signPersonalMessage_async sampleDevice served path msg
       else inl (Error "Ledger device: disconnected") |}.

(** A stand-in for the transaction library: the six caller fields, then the
    library's defaults for v, r, s; serialisation by concatenation. *)
Definition sampleTxParams : Type := list Js.Buffer.

Definition sampleEthereumTx_new (p : sampleTxParams) : list Js.Buffer :=
  take 6 (p ++ replicate 6 []) ++ [[x1c]; []; []].

Definition sampleSerialize (raw : list Js.Buffer) : Js.Buffer := concat raw.

Definition sampleTx : sampleTxParams :=
  [[x01]; [x04; xa8; x17; xc8; x00]; [x52; x08]; [xde; xad]; [x0a]; []].

Definition sampleWallet (network : Z) (index : N) : LedgerWallet :=
  setPathIndex index (ledgerWalletSubproviderFactory sampleDevice network).

(** ** Vocabulary of the statements *)

(** The requests of a window of [count] consecutive indices from [first]. *)
Fixpoint windowFrom (this : LedgerWallet) (first : N) (count : nat)
  : list DeviceRequest :=
  match count with
  | O => []
  | S count' => addressRequest this first :: windowFrom this (first + 1) count'
  end.

(** A string without upper-case letters. *)
Definition upper_ascii (c : ascii) : bool :=
  let n := N_of_ascii c in ((65 <=? n) && (n <=? 90))%N.

Fixpoint lowercased (s : string) : bool :=
  match s with
  | EmptyString => true
  | String c s' => negb (upper_ascii c) && lowercased s'
  end.

(** A byte as exactly two lower-case hex characters, zero-padded. *)
Definition hex2 (n : Z) : string :=
  let m := Z.to_N n in
  String (Js.hex_digit (m / 16)) (String (Js.hex_digit (m mod 16)) EmptyString).

Definition lower_hex_char (c : ascii) : bool :=
  let n := N_of_ascii c in
  (((48 <=? n) && (n <=? 57)) || ((97 <=? n) && (n <=? 102)))%N.

(** Calls of the two setters, and the values a sequence of them leaves. *)
Inductive SetterCall : Type :=
| SetPath (derivationPath : string)
| SetPathIndex (pathIndex : N).

Definition applySetter (this : LedgerWallet) (c : SetterCall) : LedgerWallet :=
  match c with
  | SetPath p => setPath p this
  | SetPathIndex n => setPathIndex n this
  end.

Fixpoint lastPath (calls : list SetterCall) (current : string) : string :=
  match calls with
  | [] => current
  | SetPath p :: calls' => lastPath calls' p
  | SetPathIndex _ :: calls' => lastPath calls' current
  end.

Fixpoint lastIndex (calls : list SetterCall) (current : N) : N :=
  match calls with
  | [] => current
  | SetPathIndex n :: calls' => lastIndex calls' n
  | SetPath _ :: calls' => lastIndex calls' current
  end.

(** The connection that resolves the address request made after [served]
    with [a], and is [c] everywhere else. *)
#[global] Instance DeviceRequest_eq_dec : EqDecision DeviceRequest.
Proof. solve_decision. Defined.

Definition answering (c : LedgerEthConnection) (served : list DeviceRequest)
    (a : AddressResult.t) : LedgerEthConnection :=
  {| getAddress_async := fun h path ask chain =>
       if decide (h = served) then inr a else getAddress_async c h path ask chain;
     signTransaction_async := signTransaction_async c;
     signPersonalMessage_async := signPersonalMessage_async c |}.

Definition withConnection (this : LedgerWallet) (c : LedgerEthConnection)
  : LedgerWallet :=
  {| _network := _network this;
     _derivationPath := _derivationPath this;
     _derivationPathIndex := _derivationPathIndex this;
     _ledgerEthConnection := c;
     _shouldAlwaysAskForConfirmation := _shouldAlwaysAskForConfirmation this;
     _shouldGetChainCode := _shouldGetChainCode this |}.

(** The sample device, answering transaction requests with the recovery
    byte text [recovery]. *)
Definition sampleDeviceSigning (recovery : string) : LedgerEthConnection :=
  {| getAddress_async := getAddress_async sampleDevice;
     signTransaction_async := fun _ _ _ =>
       inr {| Signature.r := Signature.r sampleSignature;
              Signature.s := Signature.s sampleSignature;
              Signature.v := recovery |};
     signPersonalMessage_async := signPersonalMessage_async sampleDevice |}.

(** The sample device, answering transaction requests with [signature]. *)
Definition sampleDeviceAnswering (signature : Signature.t) : LedgerEthConnection :=
  {| getAddress_async := getAddress_async sampleDevice;
     signTransaction_async := fun _ _ _ => inr signature;
     signPersonalMessage_async := signPersonalMessage_async sampleDevice |}.

(** A signature whose [r] begins with a zero byte (31 significant bytes),
    and one whose [r] has 33 bytes. *)
Definition sampleSignatureShortR : Signature.t :=
  {| Signature.r := "0042685bf161793cc25603c231bc2f568eb630ea16aa137d2664ac8038825608";
     Signature.s := Signature.s sampleSignature;
     Signature.v := "25" |}.

Definition sampleSignatureLongR : Signature.t :=
  {| Signature.r := "019242685bf161793cc25603c231bc2f568eb630ea16aa137d2664ac8038825608";
     Signature.s := Signature.s sampleSignature;
     Signature.v := "25" |}.

(** [kept] is [full] without its leading zero bytes. *)
Definition withoutLeadingZeros (full kept : list byte) : Prop :=
  exists k : nat, full = replicate k x00 ++ kept /\ head kept <> Some x00.

(** [text] is the hex of [bytes]: two lower-case digits a byte. *)
Definition hexOf (bytes : list byte) (text : string) : Prop :=
  Js.Buffer_from_hex text = bytes /\
  String.length text = (2 * length bytes)%nat /\
  lowercased text = true.

(** A device whose addresses do not depend on what it served before. *)
Definition stableAddresses (c : LedgerEthConnection) : Prop :=
  forall h h' path ask chain,
    getAddress_async c h path ask chain = getAddress_async c h' path ask chain.

(** Big-endian value of a buffer: the integer a slot of the transaction
    denotes. *)
Definition be_value (b : Js.Buffer) : Z :=
  fold_left (fun acc x => 256 * acc + Z.of_N (Byte.to_N x))%Z b 0%Z.

(** * Properties *)

(** ** Bytes and slots *)

Lemma byte_of_N_value (n : N) : Byte.to_N (Js.byte_of_N n) = (n mod 256)%N.
Proof.
  unfold Js.byte_of_N.
  destruct (Byte.of_N (n mod 256)) as [b|] eqn:E.
  - now apply Byte.to_of_N.
  - apply Byte.of_N_None_iff in E.
    pose proof (N.mod_upper_bound n 256). lia.
Qed.

Lemma byte_of_Z_value (z : Z) :
  Z.of_N (Byte.to_N (Js.byte_of_Z z)) = (z mod 256)%Z.
Proof.
  unfold Js.byte_of_Z. rewrite byte_of_N_value.
  pose proof (Z.mod_pos_bound z 256 eq_refl) as Hb.
  rewrite N.mod_small.
  - apply Z2N.id. lia.
  - change 256%N with (Z.to_N 256). apply Z2N.inj_lt; lia.
Qed.

Lemma be_value_from_array1 (n : Z) :
  be_value (Js.Buffer_from_array1 n) = (n mod 256)%Z.
Proof.
  unfold be_value, Js.Buffer_from_array1. simpl.
  now rewrite byte_of_Z_value.
Qed.

Section TransactionProperties.

Variable TxParams : Type.
Variable EthereumTx_new : TxParams -> list Js.Buffer.
Variable serialize : list Js.Buffer -> Js.Buffer.

(** The library's transaction object has its nine fields. *)
Hypothesis raw_fields : forall p, length (EthereumTx_new p) = 9%nat.

Lemma unsignedTx_length (this : LedgerWallet) (p : TxParams) :
  length (unsignedTx TxParams EthereumTx_new this p) = 9%nat.
Proof. unfold unsignedTx. rewrite !length_insert. apply raw_fields. Qed.

Lemma unsignedTx_slots (this : LedgerWallet) (p : TxParams) :
  let tx := unsignedTx TxParams EthereumTx_new this p in
  tx !! 6%nat = Some (Js.Buffer_from_array1 (_network this)) /\
  tx !! 7%nat = Some [] /\
  tx !! 8%nat = Some [] /\
  (forall i, (i < 6)%nat -> tx !! i = EthereumTx_new p !! i).
Proof.
  pose proof (raw_fields p) as H9.
  unfold unsignedTx. cbv zeta. repeat split.
  - rewrite !list_lookup_insert_ne by lia.
    apply list_lookup_insert_eq. lia.
  - rewrite list_lookup_insert_ne by lia.
    apply list_lookup_insert_eq. rewrite length_insert. lia.
  - apply list_lookup_insert_eq. rewrite !length_insert. lia.
  - intros i Hi. now rewrite !list_lookup_insert_ne by lia.
Qed.

Lemma tx_v_signed (raw : list Js.Buffer) (vB rB sB : list byte) :
  length raw = 9%nat ->
  tx_v (take 6 raw ++ [vB; rB; sB]) = vB.
Proof.
  intros H9. unfold tx_v.
  rewrite lookup_app_r by (rewrite length_take; lia).
  rewrite length_take, H9. reflexivity.
Qed.

Lemma stripZeros_kept (full kept : list byte) :
  withoutLeadingZeros full kept -> stripZeros full = kept.
Proof.
  intros (k & -> & Hhead). induction k as [|k IH]; simpl; [|exact IH].
  destruct kept as [|x kept]; [reflexivity|]. simpl.
  destruct (Byte.eqb x x00) eqn:E; [|reflexivity].
  apply Byte.byte_dec_bl in E. subst x. now contradiction Hhead.
Qed.

Lemma stripZeros_spec (full : list byte) :
  withoutLeadingZeros full (stripZeros full).
Proof.
  induction full as [|x full (k & Hk & Hhead)].
  - exists 0%nat. split; [reflexivity | discriminate].
  - simpl. destruct (Byte.eqb x x00) eqn:E.
    + apply Byte.byte_dec_bl in E. subst x.
      exists (S k). split; [simpl; now f_equal | exact Hhead].
    + exists 0%nat. split; [reflexivity|].
      simpl. intros H. inversion H. subst x. discriminate E.
Qed.

Lemma stored_in_order {A} (l : list A) (a b c : A) :
  length l = 9%nat ->
  <[6%nat := a]> (<[8%nat := c]> (<[7%nat := b]> l)) = take 6 l ++ [a; b; c].
Proof.
  intros H9.
  do 9 (destruct l as [|? l]; [discriminate H9|]).
  destruct l; [reflexivity | discriminate H9].
Qed.

(** What the three assignments of lines 112-114 leave, or throw. *)
Lemma storeSignature_result (result : Signature.t) (tx : list Js.Buffer) :
  length tx = 9%nat ->
  let rB := stripZeros (Js.Buffer_from_hex (Signature.r result)) in
  let sB := stripZeros (Js.Buffer_from_hex (Signature.s result)) in
  storeSignature result tx =
  if (length rB <=? 32)%nat
  then if (length sB <=? 32)%nat
       then inr (take 6 tx ++ [Js.Buffer_from_hex (Signature.v result); rB; sB])
       else inl (Error "The field s must not have more 32 bytes")
  else inl (Error "The field r must not have more 32 bytes").
Proof.
  intros H9 rB sB. unfold storeSignature, setSignatureField. fold rB sB.
  destruct (length rB <=? 32)%nat; [|reflexivity].
  destruct (length sB <=? 32)%nat; [|reflexivity].
  now rewrite stored_in_order.
Qed.

Lemma storeSignature_stored (result : Signature.t) (tx : list Js.Buffer)
    (rBytes sBytes : list byte) :
  length tx = 9%nat ->
  withoutLeadingZeros (Js.Buffer_from_hex (Signature.r result)) rBytes ->
  (length rBytes <= 32)%nat ->
  withoutLeadingZeros (Js.Buffer_from_hex (Signature.s result)) sBytes ->
  (length sBytes <= 32)%nat ->
  storeSignature result tx =
  inr (take 6 tx ++ [Js.Buffer_from_hex (Signature.v result); rBytes; sBytes]).
Proof.
  intros H9 Hr Hrl Hs Hsl.
  rewrite storeSignature_result by exact H9. cbv zeta.
  rewrite (stripZeros_kept _ _ Hr), (stripZeros_kept _ _ Hs).
  apply Nat.leb_le in Hrl, Hsl. now rewrite Hrl, Hsl.
Qed.

Lemma take_unsignedTx (this : LedgerWallet) (p : TxParams) :
  take 6 (unsignedTx TxParams EthereumTx_new this p) = take 6 (EthereumTx_new p).
Proof.
  unfold unsignedTx. now rewrite !take_insert_ge by lia.
Qed.

Lemma hex_digit_val (n : N) : (n < 16)%N -> Js.hex_val (Js.hex_digit n) = Some n.
Proof.
  intros Hn.
  assert (Hall : forallb
            (fun m => match Js.hex_val (Js.hex_digit (N.of_nat m)) with
                      | Some d => (d =? N.of_nat m)%N
                      | None => false
                      end) (seq 0 16) = true) by (vm_compute; reflexivity).
  rewrite forallb_forall in Hall.
  specialize (Hall (N.to_nat n) ltac:(apply in_seq; lia)).
  rewrite N2Nat.id in Hall.
  destruct (Js.hex_val (Js.hex_digit n)) as [d|]; [|discriminate].
  apply N.eqb_eq in Hall. now subst d.
Qed.

Lemma byte_of_N_to_N (x : byte) : Js.byte_of_N (Byte.to_N x) = x.
Proof.
  unfold Js.byte_of_N. pose proof (Byte.to_N_bounded x) as Hb.
  rewrite N.mod_small by lia. now rewrite Byte.of_to_N.
Qed.

Lemma Buffer_hex_roundtrip (b : list byte) :
  Js.Buffer_from_hex (Js.Buffer_toString_hex b) = b.
Proof.
  induction b as [|x b IH]; [reflexivity|].
  pose proof (Byte.to_N_bounded x) as Hb.
  cbn [Js.Buffer_toString_hex Js.Buffer_from_hex].
  rewrite !hex_digit_val.
  - rewrite IH. f_equal.
    rewrite <- (byte_of_N_to_N x) at 3. f_equal.
    pose proof (N.div_mod (Byte.to_N x) 16). lia.
  - apply N.mod_upper_bound. lia.
  - apply N.Div0.div_lt_upper_bound. lia.
Qed.

Lemma hex_digit_lower (n : N) : (n < 16)%N -> upper_ascii (Js.hex_digit n) = false.
Proof.
  intros Hn.
  assert (Hall : forallb (fun m => negb (upper_ascii (Js.hex_digit (N.of_nat m))))
                   (seq 0 16) = true) by (vm_compute; reflexivity).
  rewrite forallb_forall in Hall.
  specialize (Hall (N.to_nat n) ltac:(apply in_seq; lia)).
  rewrite N2Nat.id in Hall. now apply negb_true_iff in Hall.
Qed.

(** [buf.toString('hex')] is the hex of the buffer. *)
Lemma hexOf_toString (b : list byte) : hexOf b (Js.Buffer_toString_hex b).
Proof.
  split; [apply Buffer_hex_roundtrip|]. split.
  - induction b as [|x b IH]; simpl; [reflexivity|]. rewrite IH. lia.
  - induction b as [|x b IH]; [reflexivity|].
    pose proof (Byte.to_N_bounded x) as Hb.
    cbn [Js.Buffer_toString_hex lowercased].
    rewrite !hex_digit_lower, IH; [reflexivity| |].
    + apply N.mod_upper_bound. lia.
    + apply N.Div0.div_lt_upper_bound. lia.
Qed.

(** The run of [signTransactionAsync], case by case. *)
Lemma signTransactionAsync_run (this : LedgerWallet) (p : TxParams)
    (w : World string) :
  let tx := unsignedTx TxParams EthereumTx_new this p in
  let txHex := Js.Buffer_toString_hex (serialize tx) in
  let asked := sent (SignTransaction (getDerivationPath this) txHex) w in
  signTransactionAsync TxParams EthereumTx_new serialize this p w =
  match signTransaction_async (_ledgerEthConnection this) (requests w)
          (getDerivationPath this) txHex with
  | inl err => callback (Some err) None asked
  | inr result =>
      match storeSignature result tx with
      | inl err => callback (Some err) None asked
      | inr signed =>
          if Js.strict_neq (signedChainId signed) (Js.Int (_network this))
          then callback (Some (Error "TOO_OLD_LEDGER_FIRMWARE")) None asked
          else callback None
                 (Some ("0x" +:+ Js.Buffer_toString_hex (serialize signed))) asked
      end
  end.
Proof.
  cbv zeta.
  unfold signTransactionAsync, try_catch, bind, await_signTransaction, throw.
  destruct (signTransaction_async _ _ _ _) as [err|result]; [reflexivity|].
  destruct (storeSignature result _) as [err|signed]; [reflexivity|].
  destruct (Js.strict_neq _ _); reflexivity.
Qed.

(** The request [signTransactionAsync] sends, whatever the device answers. *)
Lemma signTransactionAsync_request (this : LedgerWallet) (p : TxParams)
    (w : World string) :
  requests (snd (signTransactionAsync TxParams EthereumTx_new serialize this p w)) =
  requests w ++
  [SignTransaction (getDerivationPath this)
     (Js.Buffer_toString_hex (serialize (unsignedTx TxParams EthereumTx_new this p)))].
Proof.
  rewrite signTransactionAsync_run. cbv zeta.
  destruct (signTransaction_async _ _ _ _) as [err|result]; [reflexivity|].
  destruct (storeSignature result _) as [err|signed]; [reflexivity|].
  destruct (Js.strict_neq _ _); reflexivity.
Qed.

(** A rejected signing request is reported as it is. *)
Lemma signTransactionAsync_device_error (this : LedgerWallet) (p : TxParams)
    (w : World string) (err : JsError) :
  signTransaction_async (_ledgerEthConnection this) (requests w)
    (getDerivationPath this)
    (Js.Buffer_toString_hex (serialize (unsignedTx TxParams EthereumTx_new this p)))
  = inl err ->
  callbacks (snd (signTransactionAsync TxParams EthereumTx_new serialize this p w)) =
  callbacks w ++ [(Some err, None)].
Proof.
  intros Hdev. rewrite signTransactionAsync_run. cbv zeta. now rewrite Hdev.
Qed.

(** The run once the device has answered with a signature the setters
    take in. *)
Lemma signTransactionAsync_stored (this : LedgerWallet) (p : TxParams)
    (w : World string) (result : Signature.t) (rBytes sBytes : list byte) :
  let tx := unsignedTx TxParams EthereumTx_new this p in
  let txHex := Js.Buffer_toString_hex (serialize tx) in
  let asked := sent (SignTransaction (getDerivationPath this) txHex) w in
  let vBytes := Js.Buffer_from_hex (Signature.v result) in
  let signed := take 6 (EthereumTx_new p) ++ [vBytes; rBytes; sBytes] in
  signTransaction_async (_ledgerEthConnection this) (requests w)
    (getDerivationPath this) txHex = inr result ->
  withoutLeadingZeros (Js.Buffer_from_hex (Signature.r result)) rBytes ->
  (length rBytes <= 32)%nat ->
  withoutLeadingZeros (Js.Buffer_from_hex (Signature.s result)) sBytes ->
  (length sBytes <= 32)%nat ->
  signTransactionAsync TxParams EthereumTx_new serialize this p w =
  if Js.strict_neq (Js.floor_half (Js.minus (Js.Buffer_first vBytes) 35))
       (Js.Int (_network this))
  then callback (Some (Error "TOO_OLD_LEDGER_FIRMWARE")) None asked
  else callback None (Some ("0x" +:+ Js.Buffer_toString_hex (serialize signed))) asked.
Proof.
  intros tx txHex asked vBytes signed Hdev Hr Hrl Hs Hsl.
  rewrite signTransactionAsync_run. cbv zeta. fold tx. fold txHex. rewrite Hdev.
  rewrite (storeSignature_stored result tx rBytes sBytes
             (unsignedTx_length this p) Hr Hrl Hs Hsl).
  assert (Htake : take 6 tx = take 6 (EthereumTx_new p)) by apply take_unsignedTx.
  rewrite Htake.
  unfold signedChainId. rewrite tx_v_signed by apply raw_fields.
  reflexivity.
Qed.

(** C1 (amended). For every configured chain id and every [{r, s, v}] the
    device answers to the signing request whose [r] and [s] hold at most 32
    bytes once their leading zero bytes are dropped: when [v] holds no byte,
    or its first byte [b] has [floor((b - 35) / 2)] different from the chain
    id, the callback is invoked once, with the error
    [TOO_OLD_LEDGER_FIRMWARE] and no result; when [floor((b - 35) / 2)]
    equals the chain id the callback is invoked once, without error, with
    [0x] followed by the hex of the serialised transaction that has the six
    fields of the caller, then [v], then [r] and [s] without their leading
    zero bytes. *)
Theorem signTransaction_replay_protection
    (this : LedgerWallet) (txParams : TxParams) (w : World string)
    (result : Signature.t) (rBytes sBytes : list byte) :
  let tx := unsignedTx TxParams EthereumTx_new this txParams in
  let out := snd (signTransactionAsync TxParams EthereumTx_new serialize this txParams w) in
  let vBytes := Js.Buffer_from_hex (Signature.v result) in
  let signedRaw := take 6 (EthereumTx_new txParams) ++ [vBytes; rBytes; sBytes] in
  signTransaction_async (_ledgerEthConnection this) (requests w)
    (getDerivationPath this) (Js.Buffer_toString_hex (serialize tx)) = inr result ->
  withoutLeadingZeros (Js.Buffer_from_hex (Signature.r result)) rBytes ->
  (length rBytes <= 32)%nat ->
  withoutLeadingZeros (Js.Buffer_from_hex (Signature.s result)) sBytes ->
  (length sBytes <= 32)%nat ->
  (forall b rest,
     vBytes = b :: rest ->
     ((Z.of_N (Byte.to_N b) - 35) / 2)%Z <> _network this ->
     callbacks out =
     callbacks w ++ [(Some (Error "TOO_OLD_LEDGER_FIRMWARE"), None)]) /\
  (vBytes = [] ->
     callbacks out =
     callbacks w ++ [(Some (Error "TOO_OLD_LEDGER_FIRMWARE"), None)]) /\
  (forall b rest,
     vBytes = b :: rest ->
     ((Z.of_N (Byte.to_N b) - 35) / 2)%Z = _network this ->
     exists signedTxHex,
       callbacks out = callbacks w ++ [(None, Some ("0x" +:+ signedTxHex))] /\
       hexOf (serialize signedRaw) signedTxHex).
Proof.
  intros tx out vBytes signedRaw Hdev Hr Hrl Hs Hsl. subst out.
  rewrite (signTransactionAsync_stored this txParams w result rBytes sBytes
             Hdev Hr Hrl Hs Hsl).
  fold vBytes. fold signedRaw.
  split; [|split].
  - intros b rest Hv Hne. rewrite Hv. simpl.
    apply Z.eqb_neq in Hne. now rewrite Hne.
  - intros Hv. now rewrite Hv.
  - intros b rest Hv Heq. rewrite Hv. simpl.
    apply Z.eqb_eq in Heq. rewrite Heq. simpl.
    eexists. split; [reflexivity | apply hexOf_toString].
Qed.

(** C3 (amended). For every chain id from 0 to 255, the transaction
    serialised and sent to the device has, in its v slot, the one-byte
    buffer whose value is the chain id, empty r and s slots, and the six
    fields of the caller untouched. *)
Theorem unsignedTx_placeholder_small_chain
    (this : LedgerWallet) (txParams : TxParams) (w : World string) :
  let tx := unsignedTx TxParams EthereumTx_new this txParams in
  (0 <= _network this < 256)%Z ->
  requests (snd (signTransactionAsync TxParams EthereumTx_new serialize this txParams w)) =
    requests w ++
    [SignTransaction (getDerivationPath this) (Js.Buffer_toString_hex (serialize tx))] /\
  (exists x : byte, tx !! 6%nat = Some [x] /\ be_value [x] = _network this) /\
  tx !! 7%nat = Some [] /\
  tx !! 8%nat = Some [] /\
  (forall i, (i < 6)%nat -> tx !! i = EthereumTx_new txParams !! i).
Proof.
  intros tx Hrange.
  destruct (unsignedTx_slots this txParams) as (H6 & H7 & H8 & Hlow).
  split; [apply signTransactionAsync_request|].
  split; [|auto].
  exists (Js.byte_of_Z (_network this)). split; [exact H6|].
  change [Js.byte_of_Z (_network this)] with (Js.Buffer_from_array1 (_network this)).
  rewrite be_value_from_array1. now apply Z.mod_small.
Qed.

End TransactionProperties.

Lemma sample_raw_fields (p : sampleTxParams) :
  length (sampleEthereumTx_new p) = 9%nat.
Proof.
  unfold sampleEthereumTx_new.
  rewrite length_app, length_take, length_app, length_replicate.
  change (length [[x1c]; []; []]) with 3%nat. lia.
Qed.

Lemma signTransaction_replay_protection_witness :
  (exists signedTxHex,
     callbacks (snd (signTransactionAsync _ sampleEthereumTx_new sampleSerialize
                       (ledgerWalletSubproviderFactory
                          (sampleDeviceAnswering sampleSignatureShortR) 1)
                       sampleTx fresh)) =
       [(None, Some ("0x" +:+ signedTxHex))] /\
     hexOf (sampleSerialize
              (take 6 (sampleEthereumTx_new sampleTx) ++
               [[x25];
                Js.Buffer_from_hex
                  "42685bf161793cc25603c231bc2f568eb630ea16aa137d2664ac8038825608";
                Js.Buffer_from_hex
                  "4f8ae3bd7535248d0bd448298cc2e2071e56992d0774dc340c368ae950852ada"]))
           signedTxHex /\
     signedTxHex =
       "0104a817c8005208dead0a25"
       +:+ "42685bf161793cc25603c231bc2f568eb630ea16aa137d2664ac8038825608"
       +:+ "4f8ae3bd7535248d0bd448298cc2e2071e56992d0774dc340c368ae950852ada") /\
  callbacks (snd (signTransactionAsync _ sampleEthereumTx_new sampleSerialize
                    (sampleWallet 3 0) sampleTx fresh)) =
    [(Some (Error "TOO_OLD_LEDGER_FIRMWARE"), None)].
Proof.
  assert (Hr : withoutLeadingZeros
                 (Js.Buffer_from_hex (Signature.r sampleSignatureShortR))
                 (Js.Buffer_from_hex
                    "42685bf161793cc25603c231bc2f568eb630ea16aa137d2664ac8038825608")).
  { exists 1%nat. split; [reflexivity | vm_compute; discriminate]. }
  assert (Hs : withoutLeadingZeros
                 (Js.Buffer_from_hex (Signature.s sampleSignature))
                 (Js.Buffer_from_hex (Signature.s sampleSignature))).
  { exists 0%nat. split; [reflexivity | vm_compute; discriminate]. }
  assert (Hr' : withoutLeadingZeros
                  (Js.Buffer_from_hex (Signature.r sampleSignature))
                  (Js.Buffer_from_hex (Signature.r sampleSignature))).
  { exists 0%nat. split; [reflexivity | vm_compute; discriminate]. }
  split.
  - destruct (proj2 (proj2
               (signTransaction_replay_protection _ sampleEthereumTx_new
                  sampleSerialize sample_raw_fields
                  (ledgerWalletSubproviderFactory
                     (sampleDeviceAnswering sampleSignatureShortR) 1)
                  sampleTx fresh sampleSignatureShortR _ _ eq_refl
                  Hr ltac:(vm_compute; lia) Hs ltac:(vm_compute; lia)))
               x25 [] eq_refl eq_refl) as (text & Hcb & Hhex).
    exists text. split; [exact Hcb|]. split; [exact Hhex|].
    vm_compute in Hcb. now inversion Hcb.
  - apply (proj1
             (signTransaction_replay_protection _ sampleEthereumTx_new
                sampleSerialize sample_raw_fields (sampleWallet 3 0) sampleTx fresh
                sampleSignature _ _ eq_refl
                Hr' ltac:(vm_compute; lia) Hs ltac:(vm_compute; lia))
             x25 [] eq_refl).
    discriminate.
Defined.

(** C1, as stated, fails: when the device answers with an [r] of 33 bytes
    the setter of [tx.r] throws before the check, and the callback gets that
    error, whether the byte of [v] confirms the chain id (chain id 1: no
    signed transaction is reported) or not (chain id 3: the error is not
    [TOO_OLD_LEDGER_FIRMWARE]). *)
Lemma signTransaction_replay_protection_fails :
  let device := sampleDeviceAnswering sampleSignatureLongR in
  let run := fun chainId =>
    snd (signTransactionAsync _ sampleEthereumTx_new sampleSerialize
           (ledgerWalletSubproviderFactory device chainId) sampleTx fresh) in
  Js.Buffer_from_hex (Signature.v sampleSignatureLongR) = [x25] /\
  ((Z.of_N (Byte.to_N x25) - 35) / 2 = 1)%Z /\
  length (Js.Buffer_from_hex (Signature.r sampleSignatureLongR)) = 33%nat /\
  callbacks (run 1%Z) =
    [(Some (Error "The field r must not have more 32 bytes"), None)] /\
  callbacks (run 3%Z) =
    [(Some (Error "The field r must not have more 32 bytes"), None)] /\
  ~ (exists signedTxHex, callbacks (run 1%Z) = [(None, Some signedTxHex)]) /\
  callbacks (run 3%Z) <> [(Some (Error "TOO_OLD_LEDGER_FIRMWARE"), None)].
Proof.
  cbv zeta. repeat split; try reflexivity.
  - intros (text & H). vm_compute in H. discriminate H.
  - intros H. vm_compute in H. discriminate H.
Qed.

Lemma unsignedTx_placeholder_small_chain_witness :
  (0 <= _network (sampleWallet 1 0) < 256)%Z /\
  exists x : byte,
    unsignedTx _ sampleEthereumTx_new (sampleWallet 1 0) sampleTx !! 6%nat = Some [x] /\
    be_value [x] = 1%Z.
Proof.
  assert (Hrange : (0 <= _network (sampleWallet 1 0) < 256)%Z) by (simpl; lia).
  split; [exact Hrange|].
  exact (proj1 (proj2 (unsignedTx_placeholder_small_chain _ sampleEthereumTx_new
                         sampleSerialize sample_raw_fields (sampleWallet 1 0) sampleTx
                         fresh Hrange))).
Defined.

(** C3, as stated, fails: with chain id 1337 the v slot sent to the device
    is the single byte 0x39, which denotes 57. *)
Lemma unsignedTx_placeholder_wraps :
  let this := ledgerWalletSubproviderFactory sampleDevice 1337 in
  _network this = 1337%Z /\
  unsignedTx _ sampleEthereumTx_new this sampleTx !! 6%nat = Some [x39] /\
  be_value [x39] = 57%Z /\
  ~ (exists b, unsignedTx _ sampleEthereumTx_new this sampleTx !! 6%nat = Some b /\
               be_value b = _network this).
Proof.
  cbv zeta. repeat split.
  intros (b & Hb & Hv). vm_compute in Hb. inversion Hb; subst b. discriminate Hv.
Qed.

(** In general the v slot holds the chain id modulo 256. *)
Lemma unsignedTx_placeholder_mod (TxParams : Type)
    (EthereumTx_new : TxParams -> list Js.Buffer)
    (this : LedgerWallet) (p : TxParams) :
  length (EthereumTx_new p) = 9%nat ->
  exists x : byte,
    unsignedTx TxParams EthereumTx_new this p !! 6%nat = Some [x] /\
    be_value [x] = (_network this mod 256)%Z.
Proof.
  intros H9. exists (Js.byte_of_Z (_network this)). split.
  - unfold unsignedTx. rewrite !list_lookup_insert_ne by lia.
    apply list_lookup_insert_eq. lia.
  - apply be_value_from_array1.
Qed.

(** ** getAccounts *)

Lemma lower_ascii_not_upper (c : ascii) : upper_ascii (Js.lower_ascii c) = false.
Proof. destruct c as [[] [] [] [] [] [] [] []]; reflexivity. Qed.

Lemma toLowerCase_lowercased (s : string) : lowercased (Js.toLowerCase s) = true.
Proof.
  induction s as [|c s IH]; simpl; [reflexivity|].
  now rewrite lower_ascii_not_upper, IH.
Qed.

Lemma fetchAddress_run {R} (this : LedgerWallet) (n : N) (w : World R) :
  fetchAddress this n w =
  (addressAnswer this (requests w) n, sent (addressRequest this n) w).
Proof. reflexivity. Qed.

Lemma getAccounts_loop_step (this : LedgerWallet) (todo : nat) (i : N)
    (accounts : list string) (w : World (list string)) :
  getAccounts_loop this (S todo) i accounts w =
  let w' := sent (addressRequest this (i + _derivationPathIndex this)) w in
  match addressAnswer this (requests w) (i + _derivationPathIndex this) with
  | inr result =>
      getAccounts_loop this todo (i + 1)
        (accounts ++ [Js.toLowerCase (AddressResult.address result)]) w'
  | inl err => callback (Some err) None w'
  end.
Proof.
  change (getAccounts_loop this (S todo) i accounts w) with
    (match fetchAddress this (i + _derivationPathIndex this) w with
     | (inr result, w') =>
         getAccounts_loop this todo (i + 1)
           (accounts ++ [Js.toLowerCase (AddressResult.address result)]) w'
     | (inl err, w') => callback (Some err) None w'
     end).
  rewrite fetchAddress_run.
  destruct (addressAnswer this (requests w) (i + _derivationPathIndex this));
    reflexivity.
Qed.

Lemma windowFrom_snoc (this : LedgerWallet) (count : nat) :
  forall first,
    windowFrom this first (S count) =
    windowFrom this first count ++ [addressRequest this (first + N.of_nat count)].
Proof.
  induction count as [|count IH]; intros first.
  - simpl. now rewrite N.add_0_r.
  - change (windowFrom this first (S (S count)))
      with (addressRequest this first :: windowFrom this (first + 1) (S count)).
    rewrite IH. simpl.
    replace (first + 1 + N.of_nat count)%N with (first + N.of_nat (S count))%N by lia.
    reflexivity.
Qed.

(** The loop, when the fetch of its [k]-th remaining iteration is the first
    to fail. *)
Lemma getAccounts_loop_abort (this : LedgerWallet) (err : JsError) :
  forall (k todo : nat) (i : N) (accounts : list string) (w : World (list string)),
    (k < todo)%nat ->
    (forall j, (j < k)%nat ->
       exists a,
         addressAnswer this
           (requests w ++ windowFrom this (i + _derivationPathIndex this) j)
           (i + _derivationPathIndex this + N.of_nat j) = inr a) ->
    addressAnswer this
      (requests w ++ windowFrom this (i + _derivationPathIndex this) k)
      (i + _derivationPathIndex this + N.of_nat k) = inl err ->
    let out := snd (getAccounts_loop this todo i accounts w) in
    callbacks out = callbacks w ++ [(Some err, None)] /\
    requests out =
    requests w ++ windowFrom this (i + _derivationPathIndex this) (S k).
Proof.
  induction k as [|k IH]; intros todo i accounts w Hk Hok Hfail out; subst out;
    (destruct todo as [|todo]; [lia|]); rewrite getAccounts_loop_step; cbv zeta.
  - simpl in Hfail. rewrite app_nil_r, N.add_0_r in Hfail. rewrite Hfail.
    simpl. auto.
  - destruct (Hok 0%nat ltac:(lia)) as [a Ha].
    simpl in Ha. rewrite app_nil_r, N.add_0_r in Ha. rewrite Ha.
    set (w' := sent (addressRequest this (i + _derivationPathIndex this)) w).
    assert (Hshift : (i + 1 + _derivationPathIndex this =
                      i + _derivationPathIndex this + 1)%N) by lia.
    destruct (IH todo (i + 1)%N
                (accounts ++ [Js.toLowerCase (AddressResult.address a)]) w')
      as [Hcb Hrq].
    + lia.
    + intros j Hj. destruct (Hok (S j) ltac:(lia)) as [a' Ha'].
      exists a'. rewrite Hshift. unfold w'; simpl requests.
      rewrite <- app_assoc. simpl.
      replace (i + _derivationPathIndex this + 1 + N.of_nat j)%N
        with (i + _derivationPathIndex this + N.of_nat (S j))%N by lia.
      exact Ha'.
    + rewrite Hshift. unfold w'; simpl requests.
      rewrite <- app_assoc. simpl.
      replace (i + _derivationPathIndex this + 1 + N.of_nat k)%N
        with (i + _derivationPathIndex this + N.of_nat (S k))%N by lia.
      exact Hfail.
    + split.
      * rewrite Hcb. reflexivity.
      * rewrite Hrq, Hshift. unfold w'; simpl requests.
        rewrite <- app_assoc. reflexivity.
Qed.

(** C5. For every base path and path index, when both address fetches
    succeed, [getAccounts] invokes the callback once, without error, with
    exactly two addresses: those of the indices [pathIndex] and
    [pathIndex + 1], in that order, each lower-cased. The two requests are
    sent to the device on every call, whatever was fetched before. *)
Theorem getAccounts_window (this : LedgerWallet) (w : World (list string))
    (a0 a1 : AddressResult.t) :
  let idx := _derivationPathIndex this in
  let out := snd (getAccountsAsync this w) in
  let accounts := [Js.toLowerCase (AddressResult.address a0);
                   Js.toLowerCase (AddressResult.address a1)] in
  addressAnswer this (requests w) idx = inr a0 ->
  addressAnswer this (requests w ++ [addressRequest this idx]) (idx + 1) = inr a1 ->
  callbacks out = callbacks w ++ [(None, Some accounts)] /\
  requests out =
    requests w ++ [addressRequest this idx; addressRequest this (idx + 1)] /\
  length accounts = NUM_ADDRESSES_TO_FETCH /\
  Forall (fun a => lowercased a = true) accounts.
Proof.
  intros idx out accounts H0 H1. subst out.
  unfold getAccountsAsync, NUM_ADDRESSES_TO_FETCH.
  rewrite getAccounts_loop_step, N.add_0_l. cbv zeta. fold idx. rewrite H0.
  rewrite getAccounts_loop_step. cbv zeta.
  replace (0 + 1 + _derivationPathIndex this)%N with (idx + 1)%N by (subst idx; lia).
  simpl requests. rewrite H1. simpl.
  repeat split.
  - now rewrite <- app_assoc.
  - subst accounts. repeat constructor; apply toLowerCase_lowercased.
Qed.

(** Nothing is remembered between calls: a second call sends the two
    requests again. *)
Lemma getAccounts_twice :
  let this := sampleWallet 1 0 in
  requests (snd (getAccountsAsync this (snd (getAccountsAsync this fresh)))) =
  [GetAddress "44'/60'/0'/0" false false; GetAddress "44'/60'/0'/1" false false;
   GetAddress "44'/60'/0'/0" false false; GetAddress "44'/60'/0'/1" false false].
Proof. reflexivity. Qed.

(** C6. For every [k] within the window, when the [k]-th address fetch of
    [getAccounts] is the first to fail, the callback is invoked once, with
    that error and no account list, and the device has received the [k + 1]
    requests up to the failing one and nothing after it. *)
Theorem getAccounts_aborts_on_failure (this : LedgerWallet)
    (w : World (list string)) (k : nat) (err : JsError) :
  let idx := _derivationPathIndex this in
  let out := snd (getAccountsAsync this w) in
  (k < NUM_ADDRESSES_TO_FETCH)%nat ->
  (forall j, (j < k)%nat ->
     exists a, addressAnswer this (requests w ++ windowFrom this idx j)
                 (idx + N.of_nat j) = inr a) ->
  addressAnswer this (requests w ++ windowFrom this idx k) (idx + N.of_nat k) = inl err ->
  callbacks out = callbacks w ++ [(Some err, None)] /\
  requests out = requests w ++ windowFrom this idx (S k).
Proof.
  intros idx out Hk Hok Hfail. subst out idx.
  unfold getAccountsAsync.
  pose proof (getAccounts_loop_abort this err k NUM_ADDRESSES_TO_FETCH 0 [] w Hk) as L.
  rewrite N.add_0_l in L. apply L; assumption.
Qed.

Lemma getAccounts_window_witness :
  callbacks (snd (getAccountsAsync (sampleWallet 1 3) fresh)) =
    [(None, Some ["0xe834ec434daba538cd1b9fe1582052b880bd7e63";
                  "0x78dc5d2d739606d31509c31d654056a45185ecb6"])] /\
  requests (snd (getAccountsAsync (sampleWallet 1 3) fresh)) =
    [GetAddress "44'/60'/0'/3" false false; GetAddress "44'/60'/0'/4" false false].
Proof.
  pose proof (getAccounts_window (sampleWallet 1 3) fresh
                {| AddressResult.address := "0xE834EC434DABA538cd1b9Fe1582052B880BD7e63" |}
                {| AddressResult.address := "0x78dc5D2D739606d31509C31d654056A45185ECb6" |}
                eq_refl eq_refl) as (Hcb & Hrq & _).
  split; [exact Hcb | exact Hrq].
Defined.

Lemma getAccounts_aborts_on_failure_witness :
  let this := setPathIndex 0 (ledgerWalletSubproviderFactory (unpluggedAfter 1) 1) in
  callbacks (snd (getAccountsAsync this fresh)) =
    [(Some (Error "Ledger device: disconnected"), None)] /\
  requests (snd (getAccountsAsync this fresh)) =
    [GetAddress "44'/60'/0'/0" false false; GetAddress "44'/60'/0'/1" false false].
Proof.
  cbv zeta.
  apply (getAccounts_aborts_on_failure
           (setPathIndex 0 (ledgerWalletSubproviderFactory (unpluggedAfter 1) 1))
           fresh 1%nat (Error "Ledger device: disconnected")).
  - unfold NUM_ADDRESSES_TO_FETCH. lia.
  - intros j Hj. assert (j = 0%nat) as -> by lia.
    eexists. reflexivity.
  - reflexivity.
Defined.

(** ** The path setters *)

Lemma applySetters_state (calls : list SetterCall) :
  forall this,
    fold_left applySetter calls this =
    {| _network := _network this;
       _derivationPath := lastPath calls (_derivationPath this);
       _derivationPathIndex := lastIndex calls (_derivationPathIndex this);
       _ledgerEthConnection := _ledgerEthConnection this;
       _shouldAlwaysAskForConfirmation := _shouldAlwaysAskForConfirmation this;
       _shouldGetChainCode := _shouldGetChainCode this |}.
Proof.
  induction calls as [|c calls IH]; intros this.
  - now destruct this.
  - simpl fold_left. rewrite IH. now destruct c.
Qed.

(** ** testConnection *)

Lemma settle_locked (schedule : list Settlement) :
  forall st,
    locked (fst st) = true ->
    callbacks (snd (fold_left settle schedule st)) = callbacks (snd st).
Proof.
  induction schedule as [|e schedule IH]; intros [t w] Hl; [reflexivity|].
  simpl in Hl. simpl fold_left. rewrite IH.
  - destruct e; simpl; [destruct (connectionPromise t)|]; simpl; now rewrite Hl.
  - destruct e; simpl; [destruct (connectionPromise t)|]; reflexivity.
Qed.

Lemma settle_requests (schedule : list Settlement) :
  forall st, requests (snd (fold_left settle schedule st)) = requests (snd st).
Proof.
  induction schedule as [|e schedule IH]; intros [t w]; [reflexivity|].
  simpl fold_left. rewrite IH.
  destruct e; simpl; [destruct (connectionPromise t)|]; simpl;
    now destruct (locked t).
Qed.

(** C8. For every timeout and every order in which the device promise and
    the timer settle, the callback is invoked exactly once, by the first of
    the two to settle: [(undefined, true)] when that is the device resolving,
    [(err, false)] when it is the device rejecting with [err],
    [(undefined, false)] when it is the timer. Whatever settles later adds
    no invocation. *)
Theorem testConnection_reports_once (this : LedgerWallet) (timeout : Z)
    (w : World bool) (first : Settlement) (later : list Settlement) :
  let answer :=
    getAddress_async (_ledgerEthConnection this) (requests w)
      (_derivationPath this +:+ "/0") false false in
  let out := snd (testConnection_run this timeout (first :: later) w) in
  callbacks out =
  callbacks w ++
  [match first, answer with
   | ConnectionSettles, inr _ => (None, Some true)
   | ConnectionSettles, inl err => (Some err, Some false)
   | TimeoutElapses, _ => (None, Some false)
   end].
Proof.
  intros answer out. subst out.
  unfold testConnection_run. simpl fold_left.
  rewrite settle_locked.
  - unfold testConnection. fold answer.
    destruct first; simpl; [destruct answer|]; reflexivity.
  - unfold testConnection. fold answer.
    destruct first; simpl; [destruct answer|]; reflexivity.
Qed.

(** C9. For every adapter state, whatever its confirmation setting, the
    only request [testConnection] sends is the address request at index 0 of
    the base path with both the confirmation flag and the chain-code flag
    [false]. *)
Theorem testConnection_probe_flags (this : LedgerWallet) (timeout : Z)
    (schedule : list Settlement) (w : World bool) :
  requests (snd (testConnection_run this timeout schedule w)) =
  requests w ++ [GetAddress (getPath this +:+ "/0") false false].
Proof.
  unfold testConnection_run. rewrite settle_requests. reflexivity.
Qed.

(** ** Address resolution and signMessage *)

Lemma findAddressIndex_loop_step {R} (this : LedgerWallet) (address : string)
    (todo : nat) (i : N) (w : World R) :
  findAddressIndex_loop this address (S todo) i w =
  let w' := sent (addressRequest this (i + _derivationPathIndex this)) w in
  match addressAnswer this (requests w) (i + _derivationPathIndex this) with
  | inl err => (inl err, w')
  | inr result =>
      if String.eqb (Js.toLowerCase address)
                    (Js.toLowerCase (AddressResult.address result))
      then (inr i, w')
      else findAddressIndex_loop this address todo (i + 1) w'
  end.
Proof.
  cbn [findAddressIndex_loop]. unfold bind, try_catch, throw, ret.
  rewrite fetchAddress_run.
  destruct (addressAnswer this (requests w) (i + _derivationPathIndex this));
    [reflexivity|].
  destruct (String.eqb _ _); reflexivity.
Qed.

(** Resolution only talks to the device: it extends the request log and
    never invokes the callback. *)
Lemma findAddressIndex_loop_frame {R} (this : LedgerWallet) (address : string) :
  forall (todo : nat) (i : N) (w : World R),
    let out := snd (findAddressIndex_loop this address todo i w) in
    callbacks out = callbacks w /\
    exists probes, requests out = requests w ++ probes.
Proof.
  induction todo as [|todo IH]; intros i w out; subst out.
  - simpl. split; [reflexivity|]. exists []. now rewrite app_nil_r.
  - rewrite findAddressIndex_loop_step. cbv zeta.
    set (q := addressRequest this (i + _derivationPathIndex this)).
    destruct (addressAnswer this (requests w) (i + _derivationPathIndex this))
      as [err|result].
    + simpl. split; [reflexivity|]. now exists [q].
    + destruct (String.eqb _ _).
      * simpl. split; [reflexivity|]. now exists [q].
      * destruct (IH (i + 1)%N (sent q w)) as [Hcb [probes Hrq]].
        split; [exact Hcb|].
        exists (q :: probes). rewrite Hrq. simpl. now rewrite <- app_assoc.
Qed.

Lemma resolveAddressIndex_frame (this : LedgerWallet)
    (msgParams : SignPersonalMessageParams) (w : World string) :
  let out := snd (resolveAddressIndex this msgParams w) in
  callbacks out = callbacks w /\
  exists probes, requests out = requests w ++ probes.
Proof.
  unfold resolveAddressIndex, findAddressIndex.
  destruct (from msgParams) as [sender|].
  - apply findAddressIndex_loop_frame.
  - simpl. split; [reflexivity|]. exists []. now rewrite app_nil_r.
Qed.

(** [signPersonalMessageAsync] once the index is resolved. *)
Lemma signPersonalMessageAsync_resolved (this : LedgerWallet)
    (msgParams : SignPersonalMessageParams) (w w1 : World string) (idx : N) :
  resolveAddressIndex this msgParams w = (inr idx, w1) ->
  let path := path_of (_derivationPath this) idx in
  let hex := Js.stripHexPrefix (data msgParams) in
  let fetched := sent (addressRequest this idx) w1 in
  let asked := sent (SignPersonalMessage path hex) fetched in
  signPersonalMessageAsync this msgParams w =
  match addressAnswer this (requests w1) idx with
  | inl err => callback (Some err) None fetched
  | inr _ =>
      match signPersonalMessage_async (_ledgerEthConnection this)
              (requests fetched) path hex with
      | inl err => callback (Some err) None asked
      | inr result => callback None (Some (messageSignature result)) asked
      end
  end.
Proof.
  intros Hres path hex fetched asked.
  unfold signPersonalMessageAsync, try_catch, bind. rewrite Hres.
  unfold await_getAddress, await_signPersonalMessage.
  fold (addressAnswer this (requests w1) idx).
  fold (addressRequest this idx). fold path hex fetched.
  destruct (addressAnswer this (requests w1) idx) as [err|a]; [reflexivity|].
  fold asked.
  destruct (signPersonalMessage_async _ _ _ _) as [err|result]; reflexivity.
Qed.

(** ... and when resolution fails. *)
Lemma signPersonalMessageAsync_unresolved (this : LedgerWallet)
    (msgParams : SignPersonalMessageParams) (w w1 : World string) (err : JsError) :
  resolveAddressIndex this msgParams w = (inl err, w1) ->
  signPersonalMessageAsync this msgParams w = callback (Some err) None w1.
Proof.
  intros Hres. unfold signPersonalMessageAsync, try_catch, bind.
  now rewrite Hres.
Qed.

(** Two devices that agree on every history shorter than the log the search
    ends with drive the search the same way. *)
Lemma findAddressIndex_loop_agree {R} (this : LedgerWallet)
    (c : LedgerEthConnection) (address : string) :
  forall (todo : nat) (i : N) (w : World R),
    (forall h path ask chain,
       (length h < length (requests (snd (findAddressIndex_loop this address todo i w))))%nat ->
       getAddress_async c h path ask chain =
       getAddress_async (_ledgerEthConnection this) h path ask chain) ->
    findAddressIndex_loop (withConnection this c) address todo i w =
    findAddressIndex_loop this address todo i w.
Proof.
  induction todo as [|todo IH]; intros i w Hagree; [reflexivity|].
  rewrite !findAddressIndex_loop_step. cbv zeta.
  rewrite findAddressIndex_loop_step in Hagree. cbv zeta in Hagree.
  change (addressRequest (withConnection this c)) with (addressRequest this).
  change (_derivationPathIndex (withConnection this c))
    with (_derivationPathIndex this).
  set (q := addressRequest this (i + _derivationPathIndex this)) in *.
  assert (Hnow : addressAnswer (withConnection this c) (requests w)
                   (i + _derivationPathIndex this) =
                 addressAnswer this (requests w) (i + _derivationPathIndex this)).
  { unfold addressAnswer. simpl. apply Hagree.
    destruct (addressAnswer this (requests w) (i + _derivationPathIndex this))
      as [err|a]; [simpl; rewrite length_app; simpl; lia|].
    destruct (String.eqb _ _); [simpl; rewrite length_app; simpl; lia|].
    destruct (findAddressIndex_loop_frame this address todo (i + 1) (sent q w))
      as [_ [probes Hp]].
    rewrite Hp. simpl. rewrite !length_app. simpl. lia. }
  rewrite Hnow.
  destruct (addressAnswer this (requests w) (i + _derivationPathIndex this))
    as [err|a]; [reflexivity|].
  destruct (String.eqb _ _); [reflexivity|].
  apply IH. exact Hagree.
Qed.

(** The address returned by the fetch that precedes the signature is not
    used: a device that answers that one request with any other address
    leads to the same requests and the same report. *)
Lemma signMessage_ignores_fetched_address (this : LedgerWallet)
    (msgParams : SignPersonalMessageParams) (w w1 : World string) (idx : N)
    (fetched other : AddressResult.t) :
  resolveAddressIndex this msgParams w = (inr idx, w1) ->
  addressAnswer this (requests w1) idx = inr fetched ->
  signPersonalMessageAsync
    (withConnection this (answering (_ledgerEthConnection this) (requests w1) other))
    msgParams w =
  signPersonalMessageAsync this msgParams w.
Proof.
  intros Hres Hfetch.
  set (c := answering (_ledgerEthConnection this) (requests w1) other).
  assert (Hres' : resolveAddressIndex (withConnection this c) msgParams w = (inr idx, w1)).
  { rewrite <- Hres. unfold resolveAddressIndex, findAddressIndex.
    destruct (from msgParams) as [sender|] eqn:Hfrom; [|reflexivity].
    apply findAddressIndex_loop_agree.
    intros h path ask chain Hlen.
    unfold resolveAddressIndex, findAddressIndex in Hres. rewrite Hfrom in Hres.
    rewrite Hres in Hlen. simpl in Hlen.
    unfold c. simpl. destruct (decide (h = requests w1)) as [->|_]; [lia|reflexivity]. }
  rewrite (signPersonalMessageAsync_resolved _ msgParams w w1 idx Hres').
  rewrite (signPersonalMessageAsync_resolved this msgParams w w1 idx Hres).
  rewrite Hfetch.
  assert (Hother : addressAnswer (withConnection this c) (requests w1) idx = inr other).
  { unfold addressAnswer, c. simpl.
    destruct (decide (requests w1 = requests w1)); [reflexivity|contradiction]. }
  rewrite Hother. reflexivity.
Qed.

(** C10. Once the signing index is resolved (for a call without [from] it
    is index 0 and nothing has been asked of the device), the next request
    is an address request at the signing path, with the configured flags;
    the signature request at that same path follows only if that fetch
    succeeds, and the signature reported is built from the answer to the
    signature request alone: a device that returns any other address to
    that fetch leads to the same requests and the same report. *)
Theorem signMessage_extra_address_fetch (this : LedgerWallet)
    (msgParams : SignPersonalMessageParams) (w w1 : World string) (idx : N) :
  let path := path_of (_derivationPath this) idx in
  let hex := Js.stripHexPrefix (data msgParams) in
  let fetch :=
    GetAddress path (_shouldAlwaysAskForConfirmation this) (_shouldGetChainCode this) in
  let out := snd (signPersonalMessageAsync this msgParams w) in
  resolveAddressIndex this msgParams w = (inr idx, w1) ->
  (from msgParams = None -> idx = 0%N /\ w1 = w) /\
  match getAddress_async (_ledgerEthConnection this) (requests w1) path
          (_shouldAlwaysAskForConfirmation this) (_shouldGetChainCode this) with
  | inl err =>
      requests out = requests w1 ++ [fetch] /\
      callbacks out = callbacks w ++ [(Some err, None)]
  | inr _fetched =>
      requests out = requests w1 ++ [fetch; SignPersonalMessage path hex] /\
      callbacks out =
      callbacks w ++
      [match signPersonalMessage_async (_ledgerEthConnection this)
               (requests w1 ++ [fetch]) path hex with
       | inr result => (None, Some (messageSignature result))
       | inl err => (Some err, None)
       end]
  end /\
  (forall fetched other : AddressResult.t,
     getAddress_async (_ledgerEthConnection this) (requests w1) path
       (_shouldAlwaysAskForConfirmation this) (_shouldGetChainCode this) = inr fetched ->
     signPersonalMessageAsync
       (withConnection this
          (answering (_ledgerEthConnection this) (requests w1) other))
       msgParams w =
     signPersonalMessageAsync this msgParams w).
Proof.
  intros path hex fetch out Hres. subst out.
  pose proof (resolveAddressIndex_frame this msgParams w) as [Hcb _].
  rewrite Hres in Hcb. simpl in Hcb.
  split; [|split].
  - intros Hnone. unfold resolveAddressIndex in Hres. rewrite Hnone in Hres.
    unfold ret in Hres. inversion Hres. auto.
  - rewrite (signPersonalMessageAsync_resolved this msgParams w w1 idx Hres).
    unfold addressAnswer, addressRequest. fold path fetch hex.
    destruct (getAddress_async _ _ _ _ _) as [err|a]; simpl.
    + now rewrite Hcb.
    + destruct (signPersonalMessage_async _ _ _ _) as [err|result]; simpl;
        rewrite Hcb, <- app_assoc; auto.
  - intros fetched other Hfetch.
    now apply (signMessage_ignores_fetched_address this msgParams w w1 idx fetched).
Qed.

Lemma signMessage_extra_address_fetch_witness :
  let msgParams := {| data := "0xdeadbeef"; from := None |} in
  let out := snd (signPersonalMessageAsync (sampleWallet 1 2) msgParams fresh) in
  requests out =
    [GetAddress "44'/60'/0'/0" false false;
     SignPersonalMessage "44'/60'/0'/0" "deadbeef"] /\
  callbacks out = [(None, Some (messageSignature sampleMessageSignature))].
Proof.
  cbv zeta.
  exact (proj1 (proj2 (signMessage_extra_address_fetch (sampleWallet 1 2)
                         {| data := "0xdeadbeef"; from := None |} fresh fresh 0
                         eq_refl))).
Defined.

(** A recovery number handed over as a number reads back as itself. *)
Lemma parseInt_decimal (n : Z) :
  (0 <= n <= 282)%Z -> Js.parseInt (Js.string_of_Z n) = Js.Int n.
Proof.
  intros Hn.
  assert (Hall : forallb
            (fun m => match Js.parseInt (Js.string_of_Z (Z.of_nat m)) with
                      | Js.Int z => (z =? Z.of_nat m)%Z
                      | Js.NaN => false
                      end) (seq 0 283) = true) by (vm_compute; reflexivity).
  rewrite forallb_forall in Hall.
  specialize (Hall (Z.to_nat n) ltac:(apply in_seq; lia)).
  rewrite Z2Nat.id in Hall by lia.
  destruct (Js.parseInt (Js.string_of_Z n)) as [|z]; [discriminate|].
  apply Z.eqb_eq in Hall. now subst z.
Qed.

(** The text of [v - 27] for the values of a byte where the padding works. *)
Lemma normalizedV_byte (recovery : string) (n : Z) :
  Js.parseInt recovery = Js.Int n ->
  (27 <= n <= 36 \/ 43 <= n <= 282)%Z ->
  normalizedV recovery = hex2 (n - 27).
Proof.
  intros Hparse Hrange. unfold normalizedV. rewrite Hparse. simpl Js.minus.
  set (text := fun k : Z =>
         let vHex := Js.toString16 (Js.Int k) in
         if (String.length vHex <? 2)%nat then "0" +:+ Js.toString10 (Js.Int k)
         else vHex).
  change (text (n - 27)%Z = hex2 (n - 27)).
  assert (Hall : forallb
            (fun m => let k := Z.of_nat m in
                      if ((k <=? 9) || (16 <=? k))%Z
                      then String.eqb (text k) (hex2 k) else true)
            (seq 0 256) = true) by (vm_compute; reflexivity).
  rewrite forallb_forall in Hall.
  specialize (Hall (Z.to_nat (n - 27))).
  rewrite Z2Nat.id in Hall by lia.
  assert (Hin : In (Z.to_nat (n - 27)) (seq 0 256)) by (apply in_seq; lia).
  specialize (Hall Hin). cbv zeta in Hall.
  replace ((n - 27 <=? 9) || (16 <=? n - 27))%Z with true in Hall.
  - now apply String.eqb_eq.
  - symmetry. apply orb_true_iff. destruct Hrange; [left|right]; lia.
Qed.

(** [hex2] does denote a byte by two lower-case hex characters. *)
Lemma hex2_spec (k : Z) :
  (0 <= k <= 255)%Z ->
  exists c1 c2 h l,
    hex2 k = String c1 (String c2 EmptyString) /\
    lower_hex_char c1 = true /\ lower_hex_char c2 = true /\
    Js.hex_val c1 = Some h /\ Js.hex_val c2 = Some l /\
    Z.of_N (16 * h + l) = k.
Proof.
  intros Hk.
  assert (Hall : forallb
            (fun m =>
               match hex2 (Z.of_nat m) with
               | String c1 (String c2 EmptyString) =>
                   lower_hex_char c1 && lower_hex_char c2 &&
                   match Js.hex_val c1, Js.hex_val c2 with
                   | Some h, Some l => (Z.of_N (16 * h + l) =? Z.of_nat m)%Z
                   | _, _ => false
                   end
               | _ => false
               end) (seq 0 256) = true) by (vm_compute; reflexivity).
  rewrite forallb_forall in Hall.
  specialize (Hall (Z.to_nat k)).
  rewrite Z2Nat.id in Hall by lia.
  specialize (Hall ltac:(apply in_seq; lia)).
  destruct (hex2 k) as [|c1 [|c2 [|? ?]]]; try discriminate.
  destruct (Js.hex_val c1) as [h|] eqn:E1; [|now rewrite andb_false_r in Hall].
  destruct (Js.hex_val c2) as [l|] eqn:E2; [|now rewrite andb_false_r in Hall].
  apply andb_true_iff in Hall as [Hall Hv].
  apply andb_true_iff in Hall as [H1 H2].
  apply Z.eqb_eq in Hv.
  exists c1, c2, h, l. repeat split; auto.
Qed.

(** C4 (amended). For every answer [{r, s, v}] of the device to the
    personal-message request whose [v] reads as an integer from 27 to 36 or
    from 43 to 282, [signMessage] reports [0x], then [r], then [s], then
    [v - 27] as exactly two lower-case zero-padded hex characters; 27 gives
    the suffix [00] and 28 gives [01]. *)
Theorem signMessage_signature_format (this : LedgerWallet)
    (msgParams : SignPersonalMessageParams) (w w1 : World string) (idx : N)
    (fetched : AddressResult.t) (result : Signature.t) (n : Z) :
  let path := path_of (_derivationPath this) idx in
  let out := snd (signPersonalMessageAsync this msgParams w) in
  resolveAddressIndex this msgParams w = (inr idx, w1) ->
  addressAnswer this (requests w1) idx = inr fetched ->
  signPersonalMessage_async (_ledgerEthConnection this)
    (requests w1 ++ [addressRequest this idx]) path
    (Js.stripHexPrefix (data msgParams)) = inr result ->
  Js.parseInt (Signature.v result) = Js.Int n ->
  (27 <= n <= 36 \/ 43 <= n <= 282)%Z ->
  callbacks out =
    callbacks w ++
    [(None, Some ("0x" +:+ Signature.r result +:+ Signature.s result
                       +:+ hex2 (n - 27)))] /\
  (exists c1 c2 h l,
     hex2 (n - 27) = String c1 (String c2 EmptyString) /\
     lower_hex_char c1 = true /\ lower_hex_char c2 = true /\
     Js.hex_val c1 = Some h /\ Js.hex_val c2 = Some l /\
     Z.of_N (16 * h + l) = (n - 27)%Z) /\
  hex2 (27 - 27) = "00" /\ hex2 (28 - 27) = "01".
Proof.
  intros path out Hres Hfetch Hsign Hparse Hrange. subst out.
  pose proof (resolveAddressIndex_frame this msgParams w) as [Hcb _].
  rewrite Hres in Hcb. simpl in Hcb.
  rewrite (signPersonalMessageAsync_resolved this msgParams w w1 idx Hres).
  rewrite Hfetch. simpl requests. fold path. rewrite Hsign.
  simpl. rewrite Hcb. unfold messageSignature.
  rewrite (normalizedV_byte _ n Hparse Hrange).
  repeat split. apply hex2_spec. lia.
Qed.

Lemma signMessage_signature_format_witness :
  callbacks (snd (signPersonalMessageAsync (sampleWallet 1 0)
                    {| data := "0xdeadbeef"; from := None |} fresh)) =
  [(None,
    Some ("0x" +:+ Signature.r sampleMessageSignature
               +:+ Signature.s sampleMessageSignature +:+ "01"))].
Proof.
  exact (proj1 (signMessage_signature_format (sampleWallet 1 0)
                  {| data := "0xdeadbeef"; from := None |} fresh fresh 0
                  {| AddressResult.address := "0x5409ED021D9299bf6814279A6A1411A7e866A631" |}
                  sampleMessageSignature 28
                  eq_refl eq_refl eq_refl eq_refl
                  (or_introl (conj (Zle_bool_imp_le 27 28 eq_refl)
                                   (Zle_bool_imp_le 28 36 eq_refl))))).
Defined.

(** C4, as stated, fails: a device that reports the recovery number 0
    makes [signMessage] report the suffix [-1b], which is not two hex
    characters. *)
Lemma signMessage_signature_format_fails :
  let this := ledgerWalletSubproviderFactory (sampleDeviceReporting "0") 1 in
  let r := Signature.r sampleMessageSignature in
  let s := Signature.s sampleMessageSignature in
  let out := snd (signPersonalMessageAsync this
                    {| data := "0xdeadbeef"; from := None |} fresh) in
  callbacks out = [(None, Some ("0x" +:+ r +:+ s +:+ "-1b"))] /\
  ~ (exists c1 c2,
       callbacks out =
       [(None, Some ("0x" +:+ r +:+ s +:+ String c1 (String c2 EmptyString)))]).
Proof.
  cbv zeta. split; [reflexivity|].
  intros (c1 & c2 & H).
  change (callbacks _) with
    [(@None JsError,
      Some ("0x" +:+ Signature.r sampleMessageSignature
                 +:+ Signature.s sampleMessageSignature +:+ "-1b"))] in H.
  inversion H.
Qed.

(** The padding branch renders [v - 27] in decimal: for 37 to 42 the suffix
    has three characters. *)
Lemma normalizedV_pads_decimal :
  map normalizedV ["37"; "38"; "39"; "40"; "41"; "42"] =
  ["010"; "011"; "012"; "013"; "014"; "015"].
Proof. reflexivity. Qed.

(** What a successful resolution returns: the number [k] of the probe that
    matched, counted from the start of the search, while the address that
    matched was fetched at index [k + pathIndex]. *)
Lemma findAddressIndex_loop_found {R} (this : LedgerWallet) (address : string) :
  forall (todo : nat) (i : N) (w w1 : World R) (n : N),
    findAddressIndex_loop this address todo i w = (inr n, w1) ->
    exists (k : nat) (a : AddressResult.t),
      (k < todo)%nat /\ n = (i + N.of_nat k)%N /\
      addressAnswer this
        (requests w ++ windowFrom this (i + _derivationPathIndex this) k)
        (n + _derivationPathIndex this) = inr a /\
      Js.toLowerCase address = Js.toLowerCase (AddressResult.address a) /\
      requests w1 =
      requests w ++ windowFrom this (i + _derivationPathIndex this) (S k).
Proof.
  induction todo as [|todo IH]; intros i w w1 n H.
  - discriminate H.
  - rewrite findAddressIndex_loop_step in H. cbv zeta in H.
    destruct (addressAnswer this (requests w) (i + _derivationPathIndex this))
      as [err|a] eqn:Ha; [discriminate H|].
    destruct (String.eqb _ _) eqn:Hm.
    + inversion H; subst n w1. exists 0%nat, a.
      rewrite N.add_0_r. simpl windowFrom. rewrite app_nil_r.
      repeat split; auto; [lia | now apply String.eqb_eq].
    + apply IH in H as (k & a' & Hk & Hn & Hans & Hmatch & Hrq).
      assert (Hshift : (i + 1 + _derivationPathIndex this =
                        i + _derivationPathIndex this + 1)%N) by lia.
      rewrite Hshift in Hans, Hrq. simpl requests in Hans, Hrq.
      rewrite <- app_assoc in Hans, Hrq.
      exists (S k), a'. repeat split; auto; lia.
Qed.

(** When every probe answers with another address, the search fails after
    [todo] probes with the exhaustion error. *)
Lemma findAddressIndex_loop_exhausted {R} (this : LedgerWallet) (address : string) :
  forall (todo : nat) (i : N) (w : World R),
    (forall k, (k < todo)%nat ->
       exists a,
         addressAnswer this
           (requests w ++ windowFrom this (i + _derivationPathIndex this) k)
           (i + N.of_nat k + _derivationPathIndex this) = inr a /\
         Js.toLowerCase address <> Js.toLowerCase (AddressResult.address a)) ->
    findAddressIndex_loop this address todo i w =
    (inl (Error "Exhasuted max tries searching for address"),
     {| requests := requests w ++ windowFrom this (i + _derivationPathIndex this) todo;
        callbacks := callbacks w |}).
Proof.
  induction todo as [|todo IH]; intros i w Hall.
  - simpl. unfold throw. rewrite app_nil_r. now destruct w.
  - rewrite findAddressIndex_loop_step. cbv zeta.
    destruct (Hall 0%nat ltac:(lia)) as (a & Ha & Hne).
    simpl windowFrom in Ha. rewrite app_nil_r, N.add_0_r in Ha. rewrite Ha.
    apply String.eqb_neq in Hne. rewrite Hne.
    assert (Hshift : (i + 1 + _derivationPathIndex this =
                      i + _derivationPathIndex this + 1)%N) by lia.
    rewrite IH.
    + rewrite Hshift. simpl. now rewrite <- app_assoc.
    + intros k Hk. destruct (Hall (S k) ltac:(lia)) as (a' & Ha' & Hne').
      exists a'. split; [|exact Hne'].
      rewrite Hshift. simpl requests. rewrite <- app_assoc. simpl.
      replace (i + 1 + N.of_nat k + _derivationPathIndex this)%N
        with (i + N.of_nat (S k) + _derivationPathIndex this)%N by lia.
      exact Ha'.
Qed.

(** X10. The part of the resolution protocol that holds for every path
    index: with [from] set and ten probes that all answer with other
    addresses, [signMessage] reports the exhaustion error and asks for no
    signature. *)
Lemma signMessage_address_not_found (this : LedgerWallet) (message sender : string)
    (w : World string) :
  let idx := _derivationPathIndex this in
  let out := snd (signPersonalMessageAsync this
                    {| data := message; from := Some sender |} w) in
  (forall k, (k < 10)%nat ->
     exists a,
       addressAnswer this (requests w ++ windowFrom this idx k)
         (N.of_nat k + idx) = inr a /\
       Js.toLowerCase sender <> Js.toLowerCase (AddressResult.address a)) ->
  callbacks out =
    callbacks w ++ [(Some (Error "Exhasuted max tries searching for address"), None)] /\
  requests out = requests w ++ windowFrom this idx 10.
Proof.
  intros idx out Hall. subst out idx.
  rewrite (signPersonalMessageAsync_unresolved this _ w
             {| requests := requests w ++ windowFrom this (_derivationPathIndex this) 10;
                callbacks := callbacks w |}
             (Error "Exhasuted max tries searching for address")).
  - split; reflexivity.
  - change (resolveAddressIndex this {| data := message; from := Some sender |} w)
      with (findAddressIndex_loop this sender 10 0 w).
    rewrite findAddressIndex_loop_exhausted; rewrite N.add_0_l; [reflexivity|].
    intros k Hk. rewrite N.add_0_l. apply Hall, Hk.
Qed.

(** The signing path after a match: it is built from the probe number that
    [findAddressIndex] returns, not from the index that was probed. *)
Lemma signMessage_signing_path (this : LedgerWallet) (message sender : string)
    (w w1 : World string) (n : N) :
  resolveAddressIndex this {| data := message; from := Some sender |} w = (inr n, w1) ->
  exists (k : nat) (a : AddressResult.t),
    n = N.of_nat k /\
    addressAnswer this (requests w ++ windowFrom this (_derivationPathIndex this) k)
      (N.of_nat k + _derivationPathIndex this) = inr a /\
    Js.toLowerCase sender = Js.toLowerCase (AddressResult.address a) /\
    exists rest,
      requests (snd (signPersonalMessageAsync this
                       {| data := message; from := Some sender |} w)) =
      requests w1 ++
      GetAddress (path_of (_derivationPath this) (N.of_nat k))
        (_shouldAlwaysAskForConfirmation this) (_shouldGetChainCode this) :: rest.
Proof.
  intros Hres.
  pose proof Hres as Hloop.
  change (resolveAddressIndex this {| data := message; from := Some sender |} w)
    with (findAddressIndex_loop this sender 10 0 w) in Hloop.
  apply findAddressIndex_loop_found in Hloop as (k & a & _ & Hn & Hans & Hm & _).
  rewrite N.add_0_l in Hn, Hans. subst n.
  exists k, a.
  split; [reflexivity|]. split; [exact Hans|]. split; [exact Hm|].
  rewrite (signPersonalMessageAsync_resolved this _ w w1 _ Hres).
  unfold addressRequest.
  destruct (addressAnswer this (requests w1) (N.of_nat k)); simpl.
  - now exists [].
  - destruct (signPersonalMessage_async _ _ _ _); simpl;
      rewrite <- app_assoc; simpl; eexists; reflexivity.
Qed.

(** C2, at a wallet configured with path index 2 and a [from] owned by
    index 3: the probes visit indices 2 and 3, the second one matches, and
    the signature is then requested at index 1, whose address is not
    [from]. *)
Theorem signMessage_signs_at_probe_number :
  let this := sampleWallet 1 2 in
  let sender := "0xe834ec434daba538cd1b9fe1582052b880bd7e63" in
  let out := snd (signPersonalMessageAsync this
                    {| data := "0xdeadbeef"; from := Some sender |} fresh) in
  requests out =
    [GetAddress "44'/60'/0'/2" false false;
     GetAddress "44'/60'/0'/3" false false;
     GetAddress "44'/60'/0'/1" false false;
     SignPersonalMessage "44'/60'/0'/1" "deadbeef"] /\
  callbacks out = [(None, Some (messageSignature sampleMessageSignature))] /\
  (forall served,
     addressAnswer this served 3 =
       inr {| AddressResult.address := "0xE834EC434DABA538cd1b9Fe1582052B880BD7e63" |} /\
     addressAnswer this served 1 =
       inr {| AddressResult.address := "0x6Ecbe1DB9EF729CBe972C83Fb886247691Fb6beb" |}) /\
  Js.toLowerCase "0xE834EC434DABA538cd1b9Fe1582052B880BD7e63" = sender /\
  Js.toLowerCase "0x6Ecbe1DB9EF729CBe972C83Fb886247691Fb6beb" <> sender.
Proof.
  cbv zeta. repeat split; try reflexivity. discriminate.
Qed.

(** ** Operations after the setters *)

Lemma getAccounts_loop_frame (this : LedgerWallet) :
  forall (todo : nat) (i : N) (accounts : list string) (w : World (list string)),
    exists rest,
      requests (snd (getAccounts_loop this todo i accounts w)) = requests w ++ rest.
Proof.
  induction todo as [|todo IH]; intros i accounts w.
  - exists []. simpl. now rewrite app_nil_r.
  - rewrite getAccounts_loop_step. cbv zeta.
    destruct (addressAnswer this (requests w) (i + _derivationPathIndex this))
      as [err|a].
    + eexists. reflexivity.
    + destruct (IH (i + 1)%N
                  (accounts ++ [Js.toLowerCase (AddressResult.address a)])
                  (sent (addressRequest this (i + _derivationPathIndex this)) w))
        as [rest Hrest].
      rewrite Hrest. simpl. rewrite <- app_assoc. eexists. reflexivity.
Qed.

Lemma getAccounts_first_request (this : LedgerWallet) (w : World (list string)) :
  exists rest,
    requests (snd (getAccountsAsync this w)) =
    requests w ++ addressRequest this (_derivationPathIndex this) :: rest.
Proof.
  unfold getAccountsAsync, NUM_ADDRESSES_TO_FETCH.
  rewrite getAccounts_loop_step, N.add_0_l. cbv zeta.
  destruct (addressAnswer this (requests w) (_derivationPathIndex this)) as [err|a].
  - exists []. reflexivity.
  - destruct (getAccounts_loop_frame this 1 (0 + 1)
                ([] ++ [Js.toLowerCase (AddressResult.address a)])
                (sent (addressRequest this (_derivationPathIndex this)) w))
      as [rest Hrest].
    rewrite Hrest. simpl. rewrite <- app_assoc. eexists. reflexivity.
Qed.

Lemma signPersonalMessageAsync_frame (this : LedgerWallet)
    (msgParams : SignPersonalMessageParams) (w : World string) :
  exists rest,
    requests (snd (signPersonalMessageAsync this msgParams w)) =
    requests (snd (resolveAddressIndex this msgParams w)) ++ rest.
Proof.
  destruct (resolveAddressIndex this msgParams w) as [[err|idx] w1] eqn:Hres.
  - rewrite (signPersonalMessageAsync_unresolved this msgParams w w1 err Hres).
    exists []. simpl. now rewrite app_nil_r.
  - rewrite (signPersonalMessageAsync_resolved this msgParams w w1 idx Hres).
    destruct (addressAnswer this (requests w1) idx); simpl.
    + eexists. reflexivity.
    + destruct (signPersonalMessage_async _ _ _ _); simpl;
        rewrite <- app_assoc; eexists; reflexivity.
Qed.

Lemma signMessage_first_request (this : LedgerWallet) (message : string)
    (sender : option string) (w : World string) :
  exists rest,
    requests (snd (signPersonalMessageAsync this
                     {| data := message; from := sender |} w)) =
    requests w ++
    addressRequest this
      (match sender with Some _ => _derivationPathIndex this | None => 0%N end) :: rest.
Proof.
  destruct sender as [sender|].
  - destruct (signPersonalMessageAsync_frame this
                {| data := message; from := Some sender |} w) as [rest Hrest].
    rewrite Hrest.
    change (resolveAddressIndex this {| data := message; from := Some sender |} w)
      with (findAddressIndex_loop this sender 10 0 w).
    rewrite findAddressIndex_loop_step, N.add_0_l. cbv zeta.
    set (q := addressRequest this (_derivationPathIndex this)).
    destruct (addressAnswer this (requests w) (_derivationPathIndex this)) as [err|a].
    + simpl. rewrite <- app_assoc. eexists. reflexivity.
    + destruct (String.eqb _ _).
      * simpl. rewrite <- app_assoc. eexists. reflexivity.
      * destruct (findAddressIndex_loop_frame this sender 9 (0 + 1) (sent q w))
          as [_ [probes Hp]].
        rewrite Hp. simpl. rewrite <- !app_assoc. eexists. reflexivity.
  - pose proof (signPersonalMessageAsync_resolved this
                  {| data := message; from := None |} w w 0 eq_refl) as Hrun.
    cbv zeta in Hrun. rewrite Hrun.
    destruct (addressAnswer this (requests w) 0); simpl.
    + exists []. reflexivity.
    + destruct (signPersonalMessage_async _ _ _ _); simpl;
        rewrite <- app_assoc; eexists; reflexivity.
Qed.


(** * Further properties of the operations *)

(** ** signTransaction: every outcome *)

Section SigningOutcomes.

Variable TxParams : Type.
Variable EthereumTx_new : TxParams -> list Js.Buffer.
Variable serialize : list Js.Buffer -> Js.Buffer.
Variable HostParams : Type.
Variable EthereumTx_accepts : HostParams -> JsError + TxParams.

Hypothesis raw_fields : forall p, length (EthereumTx_new p) = 9%nat.

(** X1. When the device rejects the signing request, the callback gets
    exactly that error and no result, and nothing else is asked of the
    device. *)
Theorem signTransaction_device_rejection (this : LedgerWallet) (p : TxParams)
    (w : World string) (err : JsError) :
  let txHex :=
    Js.Buffer_toString_hex (serialize (unsignedTx TxParams EthereumTx_new this p)) in
  let out := snd (signTransactionAsync TxParams EthereumTx_new serialize this p w) in
  signTransaction_async (_ledgerEthConnection this) (requests w)
    (getDerivationPath this) txHex = inl err ->
  callbacks out = callbacks w ++ [(Some err, None)] /\
  requests out = requests w ++ [SignTransaction (getDerivationPath this) txHex].
Proof.
  intros txHex out Hdev. subst out.
  unfold signTransactionAsync, try_catch, bind, await_signTransaction.
  fold txHex. rewrite Hdev. split; reflexivity.
Qed.

(** X2. Whatever the host passes and whatever the device answers: when the
    transaction library refuses the parameters, the promise of
    [signTransaction] is rejected with the library's error, nothing is sent
    to the device and the callback is not invoked; otherwise exactly one
    request is sent, the signing request at the configured path, the
    callback is invoked exactly once, and the promise resolves. *)
Theorem signTransaction_single_exchange (this : LedgerWallet) (hostParams : HostParams)
    (w : World string) :
  let run := signTransaction TxParams EthereumTx_new serialize
               HostParams EthereumTx_accepts this hostParams w in
  match EthereumTx_accepts hostParams with
  | inl err => run = (inl err, w)
  | inr txParams =>
      fst run = inr tt /\
      requests (snd run) =
        requests w ++
        [SignTransaction (getDerivationPath this)
           (Js.Buffer_toString_hex
              (serialize (unsignedTx TxParams EthereumTx_new this txParams)))] /\
      exists report, callbacks (snd run) = callbacks w ++ [report]
  end.
Proof.
  cbv zeta. unfold signTransaction.
  destruct (EthereumTx_accepts hostParams) as [err|txParams]; [reflexivity|].
  rewrite signTransactionAsync_run. cbv zeta.
  destruct (signTransaction_async _ _ _ _) as [err|result]; simpl.
  - repeat split. eexists. reflexivity.
  - destruct (storeSignature result _) as [err|signed]; simpl.
    + repeat split. eexists. reflexivity.
    + destruct (Js.strict_neq _ _); simpl; repeat split; eexists; reflexivity.
Qed.

(** X3. The check of line 117 accepts exactly the two recovery bytes of
    EIP-155: for an answer whose [r] and [s] the setters take in, with [b]
    the first byte of [v], the signed transaction is reported if and only if
    [b] is [chainId * 2 + 35] or [chainId * 2 + 36]. *)
Theorem signTransaction_accepts_eip155_bytes (this : LedgerWallet) (p : TxParams)
    (w : World string) (result : Signature.t) (b : byte) (rest : list byte)
    (rBytes sBytes : list byte) :
  let tx := unsignedTx TxParams EthereumTx_new this p in
  let out := snd (signTransactionAsync TxParams EthereumTx_new serialize this p w) in
  let bz := Z.of_N (Byte.to_N b) in
  let signedRaw := take 6 (EthereumTx_new p) ++ [b :: rest; rBytes; sBytes] in
  signTransaction_async (_ledgerEthConnection this) (requests w)
    (getDerivationPath this) (Js.Buffer_toString_hex (serialize tx)) = inr result ->
  Js.Buffer_from_hex (Signature.v result) = b :: rest ->
  withoutLeadingZeros (Js.Buffer_from_hex (Signature.r result)) rBytes ->
  (length rBytes <= 32)%nat ->
  withoutLeadingZeros (Js.Buffer_from_hex (Signature.s result)) sBytes ->
  (length sBytes <= 32)%nat ->
  ((exists signedTxHex,
      callbacks out = callbacks w ++ [(None, Some ("0x" +:+ signedTxHex))] /\
      hexOf (serialize signedRaw) signedTxHex)
   <->
   (bz = 2 * _network this + 35 \/ bz = 2 * _network this + 36)%Z).
Proof.
  intros tx out bz signedRaw Hdev Hv Hr Hrl Hs Hsl. subst out.
  rewrite (signTransactionAsync_stored TxParams EthereumTx_new serialize raw_fields
             this p w result rBytes sBytes Hdev Hr Hrl Hs Hsl).
  rewrite Hv. fold signedRaw.
  change (Js.floor_half (Js.minus (Js.Buffer_first (b :: rest)) 35))
    with (Js.Int ((bz - 35) / 2)).
  unfold Js.strict_neq.
  pose proof (Byte.to_N_bounded b) as Hb.
  destruct (Z.eqb_spec ((bz - 35) / 2) (_network this)) as [Heq|Hne]; simpl.
  - split.
    + intros _. subst bz. Z.div_mod_to_equations. lia.
    + intros _. eexists. split; [reflexivity | apply hexOf_toString].
  - split.
    + intros (text & H & _). apply app_inv_head in H. discriminate H.
    + intros H. exfalso. apply Hne. subst bz. Z.div_mod_to_equations. lia.
Qed.

(** X4. A chain id above 110 or below -18 can never be confirmed by the one
    byte the check reads: whatever the device answers to the signing
    request, the callback gets an error and no signed transaction, and for
    an answer whose [r] and [s] the setters take in that error is
    [TOO_OLD_LEDGER_FIRMWARE]. *)
Theorem signTransaction_rejects_wide_chain (this : LedgerWallet) (p : TxParams)
    (w : World string) (result : Signature.t) :
  let tx := unsignedTx TxParams EthereumTx_new this p in
  let out := snd (signTransactionAsync TxParams EthereumTx_new serialize this p w) in
  signTransaction_async (_ledgerEthConnection this) (requests w)
    (getDerivationPath this) (Js.Buffer_toString_hex (serialize tx)) = inr result ->
  (_network this < -18 \/ 110 < _network this)%Z ->
  exists err,
    callbacks out = callbacks w ++ [(Some err, None)] /\
    (forall rBytes sBytes,
       withoutLeadingZeros (Js.Buffer_from_hex (Signature.r result)) rBytes ->
       (length rBytes <= 32)%nat ->
       withoutLeadingZeros (Js.Buffer_from_hex (Signature.s result)) sBytes ->
       (length sBytes <= 32)%nat ->
       err = Error "TOO_OLD_LEDGER_FIRMWARE").
Proof.
  intros tx out Hdev Hwide. subst out.
  pose proof (unsignedTx_length TxParams EthereumTx_new raw_fields this p) as H9.
  rewrite signTransactionAsync_run. cbv zeta. fold tx. rewrite Hdev.
  rewrite (storeSignature_result result tx H9). cbv zeta.
  destruct (length (stripZeros (Js.Buffer_from_hex (Signature.r result))) <=? 32)%nat
    eqn:Er.
  - destruct (length (stripZeros (Js.Buffer_from_hex (Signature.s result))) <=? 32)%nat
      eqn:Es.
    + exists (Error "TOO_OLD_LEDGER_FIRMWARE"). split; [|reflexivity].
      unfold signedChainId. rewrite tx_v_signed by exact H9.
      destruct (Js.Buffer_from_hex (Signature.v result)) as [|b rest]; [reflexivity|].
      change (Js.floor_half (Js.minus (Js.Buffer_first (b :: rest)) 35))
        with (Js.Int ((Z.of_N (Byte.to_N b) - 35) / 2)).
      unfold Js.strict_neq.
      pose proof (Byte.to_N_bounded b) as Hb.
      destruct (Z.eqb_spec ((Z.of_N (Byte.to_N b) - 35) / 2) (_network this))
        as [Heq|Hne]; [|reflexivity].
      exfalso. Z.div_mod_to_equations. lia.
    + eexists. split; [reflexivity|].
      intros rBytes sBytes _ _ Hs Hsl. rewrite (stripZeros_kept _ _ Hs) in Es.
      apply Nat.leb_gt in Es. lia.
  - eexists. split; [reflexivity|].
    intros rBytes sBytes Hr Hrl _ _. rewrite (stripZeros_kept _ _ Hr) in Er.
    apply Nat.leb_gt in Er. lia.
Qed.

(** X5. An answer whose [v] does not start with two hex digits (an empty
    text, a [0x]-prefixed one) decodes to no byte; when its [r] and [s] are
    taken in by the setters it is reported as [TOO_OLD_LEDGER_FIRMWARE], for
    every chain id. *)
Theorem signTransaction_undecodable_v (this : LedgerWallet) (p : TxParams)
    (w : World string) (result : Signature.t) (rBytes sBytes : list byte) :
  let tx := unsignedTx TxParams EthereumTx_new this p in
  let out := snd (signTransactionAsync TxParams EthereumTx_new serialize this p w) in
  signTransaction_async (_ledgerEthConnection this) (requests w)
    (getDerivationPath this) (Js.Buffer_toString_hex (serialize tx)) = inr result ->
  (forall c1 c2 rest,
     Signature.v result = String c1 (String c2 rest) ->
     Js.hex_val c1 = None \/ Js.hex_val c2 = None) ->
  withoutLeadingZeros (Js.Buffer_from_hex (Signature.r result)) rBytes ->
  (length rBytes <= 32)%nat ->
  withoutLeadingZeros (Js.Buffer_from_hex (Signature.s result)) sBytes ->
  (length sBytes <= 32)%nat ->
  callbacks out = callbacks w ++ [(Some (Error "TOO_OLD_LEDGER_FIRMWARE"), None)].
Proof.
  intros tx out Hdev Hbad Hr Hrl Hs Hsl. subst out.
  rewrite (signTransactionAsync_stored TxParams EthereumTx_new serialize raw_fields
             this p w result rBytes sBytes Hdev Hr Hrl Hs Hsl).
  assert (Hv : Js.Buffer_from_hex (Signature.v result) = []).
  { destruct (Signature.v result) as [|c1 [|c2 rest]]; try reflexivity.
    simpl. destruct (Hbad c1 c2 rest eq_refl) as [H|H]; rewrite H;
      [reflexivity | now destruct (Js.hex_val c1)]. }
  now rewrite Hv.
Qed.

(** X6. An answer whose [r], or whose [s], still holds more than 32 bytes
    once its leading zero bytes are dropped is refused by the setter of
    line 112 or 113: the callback gets the library's assertion error, once,
    with no signed transaction, whatever [v] is. *)
Theorem signTransaction_oversize_signature (this : LedgerWallet) (p : TxParams)
    (w : World string) (result : Signature.t) :
  let tx := unsignedTx TxParams EthereumTx_new this p in
  let out := snd (signTransactionAsync TxParams EthereumTx_new serialize this p w) in
  signTransaction_async (_ledgerEthConnection this) (requests w)
    (getDerivationPath this) (Js.Buffer_toString_hex (serialize tx)) = inr result ->
  (forall rBytes,
     withoutLeadingZeros (Js.Buffer_from_hex (Signature.r result)) rBytes ->
     (32 < length rBytes)%nat ->
     callbacks out =
     callbacks w ++ [(Some (Error "The field r must not have more 32 bytes"), None)]) /\
  (forall rBytes sBytes,
     withoutLeadingZeros (Js.Buffer_from_hex (Signature.r result)) rBytes ->
     (length rBytes <= 32)%nat ->
     withoutLeadingZeros (Js.Buffer_from_hex (Signature.s result)) sBytes ->
     (32 < length sBytes)%nat ->
     callbacks out =
     callbacks w ++ [(Some (Error "The field s must not have more 32 bytes"), None)]).
Proof.
  intros tx out Hdev. subst out.
  pose proof (unsignedTx_length TxParams EthereumTx_new raw_fields this p) as H9.
  rewrite signTransactionAsync_run. cbv zeta. fold tx. rewrite Hdev.
  rewrite (storeSignature_result result tx H9). cbv zeta.
  split.
  - intros rBytes Hr Hrl. rewrite (stripZeros_kept _ _ Hr).
    apply Nat.leb_gt in Hrl. now rewrite Hrl.
  - intros rBytes sBytes Hr Hrl Hs Hsl.
    rewrite (stripZeros_kept _ _ Hr), (stripZeros_kept _ _ Hs).
    apply Nat.leb_le in Hrl. apply Nat.leb_gt in Hsl. now rewrite Hrl, Hsl.
Qed.

End SigningOutcomes.

Lemma signTransaction_device_rejection_witness :
  let this := ledgerWalletSubproviderFactory (unpluggedAfter 0) 1 in
  callbacks (snd (signTransactionAsync _ sampleEthereumTx_new sampleSerialize
                    this sampleTx fresh)) =
  [(Some (Error "Ledger device: disconnected"), None)].
Proof.
  exact (proj1 (signTransaction_device_rejection _ sampleEthereumTx_new sampleSerialize
                  (ledgerWalletSubproviderFactory (unpluggedAfter 0) 1) sampleTx fresh
                  (Error "Ledger device: disconnected") eq_refl)).
Defined.

Lemma sampleSignature_significant :
  withoutLeadingZeros (Js.Buffer_from_hex (Signature.r sampleSignature))
    (Js.Buffer_from_hex (Signature.r sampleSignature)) /\
  withoutLeadingZeros (Js.Buffer_from_hex (Signature.s sampleSignature))
    (Js.Buffer_from_hex (Signature.s sampleSignature)).
Proof.
  split; (exists 0%nat; split; [reflexivity | vm_compute; discriminate]).
Qed.

Lemma signTransaction_accepts_eip155_bytes_witness :
  exists signedTxHex,
    callbacks (snd (signTransactionAsync _ sampleEthereumTx_new sampleSerialize
                      (sampleWallet 1 0) sampleTx fresh)) =
      [(None, Some ("0x" +:+ signedTxHex))] /\
    hexOf (sampleSerialize
             (take 6 (sampleEthereumTx_new sampleTx) ++
              [[x25];
               Js.Buffer_from_hex (Signature.r sampleSignature);
               Js.Buffer_from_hex (Signature.s sampleSignature)]))
          signedTxHex.
Proof.
  apply (proj2 (signTransaction_accepts_eip155_bytes _ sampleEthereumTx_new
                  sampleSerialize sample_raw_fields (sampleWallet 1 0) sampleTx fresh
                  sampleSignature x25 []
                  (Js.Buffer_from_hex (Signature.r sampleSignature))
                  (Js.Buffer_from_hex (Signature.s sampleSignature))
                  eq_refl eq_refl
                  (proj1 sampleSignature_significant) ltac:(vm_compute; lia)
                  (proj2 sampleSignature_significant) ltac:(vm_compute; lia))).
  left. reflexivity.
Defined.

Lemma signTransaction_rejects_wide_chain_witness :
  exists err,
    callbacks (snd (signTransactionAsync _ sampleEthereumTx_new sampleSerialize
                      (sampleWallet 1337 0) sampleTx fresh)) = [(Some err, None)] /\
    err = Error "TOO_OLD_LEDGER_FIRMWARE".
Proof.
  destruct (signTransaction_rejects_wide_chain _ sampleEthereumTx_new sampleSerialize
              sample_raw_fields (sampleWallet 1337 0) sampleTx fresh sampleSignature
              eq_refl ltac:(right; reflexivity)) as (err & Hcb & Herr).
  exists err. split; [exact Hcb|].
  exact (Herr _ _ (proj1 sampleSignature_significant) ltac:(vm_compute; lia)
           (proj2 sampleSignature_significant) ltac:(vm_compute; lia)).
Defined.

Lemma signTransaction_undecodable_v_witness :
  let this := ledgerWalletSubproviderFactory (sampleDeviceSigning "0x25") 1 in
  callbacks (snd (signTransactionAsync _ sampleEthereumTx_new sampleSerialize
                    this sampleTx fresh)) =
  [(Some (Error "TOO_OLD_LEDGER_FIRMWARE"), None)].
Proof.
  apply (signTransaction_undecodable_v _ sampleEthereumTx_new sampleSerialize
           sample_raw_fields
           (ledgerWalletSubproviderFactory (sampleDeviceSigning "0x25") 1) sampleTx fresh
           {| Signature.r := Signature.r sampleSignature;
              Signature.s := Signature.s sampleSignature;
              Signature.v := "0x25" |}
           (Js.Buffer_from_hex (Signature.r sampleSignature))
           (Js.Buffer_from_hex (Signature.s sampleSignature))
           eq_refl).
  - intros c1 c2 rest H. simpl in H. inversion H. right. reflexivity.
  - exact (proj1 sampleSignature_significant).
  - vm_compute; lia.
  - exact (proj2 sampleSignature_significant).
  - vm_compute; lia.
Defined.

Lemma signTransaction_oversize_signature_witness :
  callbacks (snd (signTransactionAsync _ sampleEthereumTx_new sampleSerialize
                    (ledgerWalletSubproviderFactory
                       (sampleDeviceAnswering sampleSignatureLongR) 1)
                    sampleTx fresh)) =
  [(Some (Error "The field r must not have more 32 bytes"), None)].
Proof.
  apply (proj1 (signTransaction_oversize_signature _ sampleEthereumTx_new
                  sampleSerialize sample_raw_fields
                  (ledgerWalletSubproviderFactory
                     (sampleDeviceAnswering sampleSignatureLongR) 1)
                  sampleTx fresh sampleSignatureLongR eq_refl)
           (Js.Buffer_from_hex (Signature.r sampleSignatureLongR))).
  - exists 0%nat. split; [reflexivity | vm_compute; discriminate].
  - vm_compute; lia.
Defined.

(** ** getAccounts: every outcome *)

Lemma getAccounts_loop_shape (this : LedgerWallet) :
  forall (todo : nat) (i : N) (accounts : list string) (w : World (list string)),
    let run := getAccounts_loop this todo i accounts w in
    fst run = inr tt /\
    (exists k,
       (k <= todo)%nat /\ ((0 < todo)%nat -> (0 < k)%nat) /\
       requests (snd run) =
       requests w ++ windowFrom this (i + _derivationPathIndex this) k) /\
    exists report,
      callbacks (snd run) = callbacks w ++ [report] /\
      ((exists err, report = (Some err, None)) \/
       (exists more,
          report = (None, Some (accounts ++ more)) /\
          length more = todo /\
          Forall (fun a => lowercased a = true) more)).
Proof.
  induction todo as [|todo IH]; intros i accounts w run; subst run.
  - simpl. split; [reflexivity|]. split.
    + exists 0%nat. simpl. rewrite app_nil_r. repeat split; lia.
    + eexists. split; [reflexivity|]. right. exists [].
      rewrite app_nil_r. repeat split. constructor.
  - rewrite getAccounts_loop_step. cbv zeta.
    set (q := addressRequest this (i + _derivationPathIndex this)).
    destruct (addressAnswer this (requests w) (i + _derivationPathIndex this))
      as [err|a].
    + simpl. split; [reflexivity|]. split.
      * exists 1%nat. simpl. repeat split; lia.
      * eexists. split; [reflexivity|]. left. now exists err.
    + destruct (IH (i + 1)%N
                  (accounts ++ [Js.toLowerCase (AddressResult.address a)]) (sent q w))
        as (Hfst & (k & Hk & Hpos & Hrq) & (report & Hcb & Hrep)).
      split; [exact Hfst|]. split.
      * exists (S k). split; [lia|]. split; [lia|].
        rewrite Hrq. simpl. rewrite <- app_assoc. simpl.
        replace (i + 1 + _derivationPathIndex this)%N
          with (i + _derivationPathIndex this + 1)%N by lia.
        reflexivity.
      * exists report. split; [exact Hcb|].
        destruct Hrep as [Herr|(more & Hr & Hlen & Hlow)]; [now left|right].
        exists (Js.toLowerCase (AddressResult.address a) :: more).
        split; [now rewrite Hr, <- app_assoc|].
        split; [simpl; lia|].
        constructor; [apply toLowerCase_lowercased | exact Hlow].
Qed.

(** X7. Whatever the device does, [getAccounts] resolves, sends one or two
    address requests at consecutive indices from the path index, and invokes
    the callback exactly once: with an error and no list, or with no error
    and exactly two lower-cased accounts; never with a shorter list. *)
Theorem getAccounts_every_outcome (this : LedgerWallet) (w : World (list string)) :
  let run := getAccountsAsync this w in
  fst run = inr tt /\
  (exists k,
     (1 <= k <= 2)%nat /\
     requests (snd run) = requests w ++ windowFrom this (_derivationPathIndex this) k) /\
  exists report,
    callbacks (snd run) = callbacks w ++ [report] /\
    ((exists err, report = (Some err, None)) \/
     (exists accounts,
        report = (None, Some accounts) /\
        length accounts = 2%nat /\
        Forall (fun a => lowercased a = true) accounts)).
Proof.
  destruct (getAccounts_loop_shape this NUM_ADDRESSES_TO_FETCH 0 [] w)
    as (Hfst & (k & Hk & Hpos & Hrq) & (report & Hcb & Hrep)).
  unfold NUM_ADDRESSES_TO_FETCH in *. rewrite N.add_0_l in Hrq.
  cbv zeta. unfold getAccountsAsync, NUM_ADDRESSES_TO_FETCH.
  split; [exact Hfst|]. split.
  - exists k. split; [lia | exact Hrq].
  - exists report. split; [exact Hcb|].
    destruct Hrep as [Herr|(more & Hr & Hlen & Hlow)]; [now left|right].
    exists more. auto.
Qed.

(** ** findAddressIndex and signMessage: every outcome *)

Lemma lower_ascii_idempotent (c : ascii) :
  Js.lower_ascii (Js.lower_ascii c) = Js.lower_ascii c.
Proof. destruct c as [[] [] [] [] [] [] [] []]; reflexivity. Qed.

Lemma toLowerCase_idempotent (s : string) :
  Js.toLowerCase (Js.toLowerCase s) = Js.toLowerCase s.
Proof.
  induction s as [|c s IH]; simpl; [reflexivity|].
  now rewrite lower_ascii_idempotent, IH.
Qed.

(** The search in full: which probe matched, and that no earlier one did. *)
Lemma findAddressIndex_loop_first_match {R} (this : LedgerWallet) (address : string) :
  forall (todo : nat) (i : N) (w w1 : World R) (n : N),
    findAddressIndex_loop this address todo i w = (inr n, w1) ->
    exists k : nat,
      (k < todo)%nat /\ n = (i + N.of_nat k)%N /\
      (exists a,
         addressAnswer this
           (requests w ++ windowFrom this (i + _derivationPathIndex this) k)
           (i + N.of_nat k + _derivationPathIndex this) = inr a /\
         Js.toLowerCase address = Js.toLowerCase (AddressResult.address a)) /\
      (forall j, (j < k)%nat ->
         exists a,
           addressAnswer this
             (requests w ++ windowFrom this (i + _derivationPathIndex this) j)
             (i + N.of_nat j + _derivationPathIndex this) = inr a /\
           Js.toLowerCase address <> Js.toLowerCase (AddressResult.address a)) /\
      requests w1 =
        requests w ++ windowFrom this (i + _derivationPathIndex this) (S k) /\
      callbacks w1 = callbacks w.
Proof.
  induction todo as [|todo IH]; intros i w w1 n H; [discriminate H|].
  rewrite findAddressIndex_loop_step in H. cbv zeta in H.
  destruct (addressAnswer this (requests w) (i + _derivationPathIndex this))
    as [err|a] eqn:Ha; [discriminate H|].
  assert (Hshift : (i + 1 + _derivationPathIndex this =
                    i + _derivationPathIndex this + 1)%N) by lia.
  destruct (String.eqb _ _) eqn:Hm.
  - inversion H; subst n w1. exists 0%nat.
    simpl windowFrom. rewrite app_nil_r, !N.add_0_r.
    split; [lia|]. split; [reflexivity|]. split.
    + exists a. split; [exact Ha | now apply String.eqb_eq].
    + split; [intros j Hj; lia | split; reflexivity].
  - apply IH in H as (k & Hk & Hn & (a' & Hans & Hmatch) & Hearlier & Hrq & Hcb).
    rewrite Hshift in Hans, Hrq. simpl requests in Hans, Hrq.
    rewrite <- app_assoc in Hans, Hrq.
    exists (S k). split; [lia|]. split; [lia|]. split.
    + exists a'. split; [|exact Hmatch].
      replace (i + N.of_nat (S k) + _derivationPathIndex this)%N
        with (i + 1 + N.of_nat k + _derivationPathIndex this)%N by lia.
      exact Hans.
    + split; [|split; [exact Hrq | exact Hcb]].
      intros [|j] Hj.
      * exists a. simpl windowFrom. rewrite app_nil_r, N.add_0_r.
        split; [exact Ha | now apply String.eqb_neq].
      * destruct (Hearlier j ltac:(lia)) as (aj & Haj & Hnj).
        exists aj. split; [|exact Hnj].
        rewrite Hshift in Haj. simpl requests in Haj.
        rewrite <- app_assoc in Haj.
        replace (i + N.of_nat (S j) + _derivationPathIndex this)%N
          with (i + 1 + N.of_nat j + _derivationPathIndex this)%N by lia.
        exact Haj.
Qed.

(** The search when a probe is rejected. *)
Lemma findAddressIndex_loop_abort {R} (this : LedgerWallet) (address : string)
    (err : JsError) :
  forall (k todo : nat) (i : N) (w : World R),
    (k < todo)%nat ->
    (forall j, (j < k)%nat ->
       exists a,
         addressAnswer this
           (requests w ++ windowFrom this (i + _derivationPathIndex this) j)
           (i + N.of_nat j + _derivationPathIndex this) = inr a /\
         Js.toLowerCase address <> Js.toLowerCase (AddressResult.address a)) ->
    addressAnswer this
      (requests w ++ windowFrom this (i + _derivationPathIndex this) k)
      (i + N.of_nat k + _derivationPathIndex this) = inl err ->
    findAddressIndex_loop this address todo i w =
    (inl err,
     {| requests := requests w ++ windowFrom this (i + _derivationPathIndex this) (S k);
        callbacks := callbacks w |}).
Proof.
  induction k as [|k IH]; intros todo i w Hk Hearlier Hfail;
    (destruct todo as [|todo]; [lia|]);
    rewrite findAddressIndex_loop_step; cbv zeta.
  - simpl windowFrom in Hfail. rewrite app_nil_r, N.add_0_r in Hfail.
    rewrite Hfail. reflexivity.
  - destruct (Hearlier 0%nat ltac:(lia)) as (a & Ha & Hne).
    simpl windowFrom in Ha. rewrite app_nil_r, N.add_0_r in Ha. rewrite Ha.
    apply String.eqb_neq in Hne. rewrite Hne.
    assert (Hshift : (i + 1 + _derivationPathIndex this =
                      i + _derivationPathIndex this + 1)%N) by lia.
    rewrite (IH todo (i + 1)%N).
    + rewrite Hshift. simpl. now rewrite <- app_assoc.
    + lia.
    + intros j Hj. destruct (Hearlier (S j) ltac:(lia)) as (aj & Haj & Hnj).
      exists aj. split; [|exact Hnj].
      rewrite Hshift. simpl requests. rewrite <- app_assoc. simpl.
      replace (i + 1 + N.of_nat j + _derivationPathIndex this)%N
        with (i + N.of_nat (S j) + _derivationPathIndex this)%N by lia.
      exact Haj.
    + rewrite Hshift. simpl requests. rewrite <- app_assoc. simpl.
      replace (i + 1 + N.of_nat k + _derivationPathIndex this)%N
        with (i + N.of_nat (S k) + _derivationPathIndex this)%N by lia.
      exact Hfail.
Qed.

(** The search sends a window of at most [todo] probes and never invokes
    the callback. *)
Lemma findAddressIndex_loop_window {R} (this : LedgerWallet) (address : string) :
  forall (todo : nat) (i : N) (w : World R),
    let out := snd (findAddressIndex_loop this address todo i w) in
    callbacks out = callbacks w /\
    exists k,
      (k <= todo)%nat /\ ((0 < todo)%nat -> (0 < k)%nat) /\
      requests out = requests w ++ windowFrom this (i + _derivationPathIndex this) k.
Proof.
  induction todo as [|todo IH]; intros i w out; subst out.
  - simpl. split; [reflexivity|]. exists 0%nat. simpl. rewrite app_nil_r.
    split; [lia|]. split; [lia | reflexivity].
  - rewrite findAddressIndex_loop_step. cbv zeta.
    destruct (addressAnswer this (requests w) (i + _derivationPathIndex this))
      as [err|a].
    + simpl. split; [reflexivity|]. exists 1%nat.
      split; [lia|]. split; [lia | reflexivity].
    + destruct (String.eqb _ _).
      * simpl. split; [reflexivity|]. exists 1%nat.
        split; [lia|]. split; [lia | reflexivity].
      * destruct (IH (i + 1)%N
                    (sent (addressRequest this (i + _derivationPathIndex this)) w))
          as [Hcb (k & Hk & _ & Hrq)].
        split; [exact Hcb|]. exists (S k). split; [lia|]. split; [lia|].
        rewrite Hrq. simpl. rewrite <- app_assoc. simpl.
        replace (i + 1 + _derivationPathIndex this)%N
          with (i + _derivationPathIndex this + 1)%N by lia.
        reflexivity.
Qed.

(** The search reads the requested address through [toLowerCase] only. *)
Lemma findAddressIndex_loop_lower {R} (this : LedgerWallet) (s1 s2 : string) :
  Js.toLowerCase s1 = Js.toLowerCase s2 ->
  forall (todo : nat) (i : N) (w : World R),
    findAddressIndex_loop this s1 todo i w = findAddressIndex_loop this s2 todo i w.
Proof.
  intros Hlow. induction todo as [|todo IH]; intros i w; [reflexivity|].
  rewrite !findAddressIndex_loop_step. cbv zeta. rewrite Hlow.
  destruct (addressAnswer this (requests w) (i + _derivationPathIndex this));
    [reflexivity|].
  destruct (String.eqb _ _); [reflexivity | apply IH].
Qed.

(** X8. First match wins: when [findAddressIndex] returns a number [k], the
    probe number [k] (at index [k + pathIndex]) answered with an address
    equal to the requested one up to case, every earlier probe answered with
    a different address, exactly [k + 1] probes were sent, and [k] is below
    [maxTries]. *)
Theorem findAddressIndex_first_match (this : LedgerWallet) (address : string)
    (maxTries : nat) (w w1 : World string) (n : N) :
  let idx := _derivationPathIndex this in
  findAddressIndex this address maxTries w = (inr n, w1) ->
  exists k : nat,
    (k < maxTries)%nat /\ n = N.of_nat k /\
    (exists a,
       addressAnswer this (requests w ++ windowFrom this idx k) (N.of_nat k + idx) = inr a /\
       Js.toLowerCase address = Js.toLowerCase (AddressResult.address a)) /\
    (forall j, (j < k)%nat ->
       exists a,
         addressAnswer this (requests w ++ windowFrom this idx j) (N.of_nat j + idx) = inr a /\
         Js.toLowerCase address <> Js.toLowerCase (AddressResult.address a)) /\
    requests w1 = requests w ++ windowFrom this idx (S k) /\
    callbacks w1 = callbacks w.
Proof.
  intros idx H. unfold findAddressIndex in H.
  apply findAddressIndex_loop_first_match in H
    as (k & Hk & Hn & Hmatch & Hearlier & Hrq & Hcb).
  rewrite N.add_0_l in *. exists k.
  split; [exact Hk|]. split; [exact Hn|]. split.
  - destruct Hmatch as (a & Ha & Hm). exists a. rewrite N.add_0_l in Ha. auto.
  - split; [|auto]. intros j Hj. destruct (Hearlier j Hj) as (a & Ha & Hne).
    exists a. rewrite N.add_0_l in Ha. auto.
Qed.

Lemma findAddressIndex_first_match_witness :
  exists k : nat,
    (k < 10)%nat /\ 3%N = N.of_nat k /\
    requests (snd (findAddressIndex (R := string) (sampleWallet 1 0)
                     "0xE834EC434DABA538CD1B9FE1582052B880BD7E63" 10 fresh)) =
    windowFrom (sampleWallet 1 0) 0 (S k).
Proof.
  destruct (findAddressIndex_first_match (sampleWallet 1 0)
              "0xE834EC434DABA538CD1B9FE1582052B880BD7E63" 10 fresh
              (snd (findAddressIndex (sampleWallet 1 0)
                      "0xE834EC434DABA538CD1B9FE1582052B880BD7E63" 10 fresh))
              3 eq_refl)
    as (k & Hk & Hn & _ & _ & Hrq & _).
  exists k. split; [exact Hk|]. split; [exact Hn | exact Hrq].
Defined.

(** X9. When a probe is rejected, after earlier probes that answered with
    other addresses, [signMessage] reports exactly that error, stops
    probing, and asks for no signature. *)
Theorem signMessage_probe_rejection (this : LedgerWallet) (message sender : string)
    (w : World string) (k : nat) (err : JsError) :
  let idx := _derivationPathIndex this in
  let out := snd (signPersonalMessageAsync this
                    {| data := message; from := Some sender |} w) in
  (k < 10)%nat ->
  (forall j, (j < k)%nat ->
     exists a,
       addressAnswer this (requests w ++ windowFrom this idx j) (N.of_nat j + idx) = inr a /\
       Js.toLowerCase sender <> Js.toLowerCase (AddressResult.address a)) ->
  addressAnswer this (requests w ++ windowFrom this idx k) (N.of_nat k + idx) = inl err ->
  callbacks out = callbacks w ++ [(Some err, None)] /\
  requests out = requests w ++ windowFrom this idx (S k).
Proof.
  intros idx out Hk Hearlier Hfail. subst out idx.
  rewrite (signPersonalMessageAsync_unresolved this _ w
             {| requests := requests w ++ windowFrom this (_derivationPathIndex this) (S k);
                callbacks := callbacks w |} err).
  - split; reflexivity.
  - change (resolveAddressIndex this {| data := message; from := Some sender |} w)
      with (findAddressIndex_loop this sender 10 0 w).
    rewrite (findAddressIndex_loop_abort this sender err k 10 0 w Hk);
      rewrite ?N.add_0_l; [reflexivity| |exact Hfail].
    intros j Hj. rewrite N.add_0_l. apply Hearlier, Hj.
Qed.

Lemma signMessage_probe_rejection_witness :
  let this := ledgerWalletSubproviderFactory (unpluggedAfter 1) 1 in
  let out := snd (signPersonalMessageAsync this
                    {| data := "0xdeadbeef";
                       from := Some "0xe834ec434daba538cd1b9fe1582052b880bd7e63" |}
                    fresh) in
  callbacks out = [(Some (Error "Ledger device: disconnected"), None)] /\
  requests out =
    [GetAddress "44'/60'/0'/0" false false; GetAddress "44'/60'/0'/1" false false].
Proof.
  cbv zeta.
  apply (signMessage_probe_rejection
           (ledgerWalletSubproviderFactory (unpluggedAfter 1) 1)
           "0xdeadbeef" "0xe834ec434daba538cd1b9fe1582052b880bd7e63" fresh 1%nat
           (Error "Ledger device: disconnected")).
  - lia.
  - intros j Hj. assert (j = 0%nat) as -> by lia.
    eexists. split; [reflexivity | discriminate].
  - reflexivity.
Defined.

Lemma signMessage_address_not_found_witness :
  let out := snd (signPersonalMessageAsync (sampleWallet 1 0)
                    {| data := "0xdeadbeef";
                       from := Some "0x0000000000000000000000000000000000000000" |}
                    fresh) in
  callbacks out = [(Some (Error "Exhasuted max tries searching for address"), None)] /\
  requests out = windowFrom (sampleWallet 1 0) 0 10.
Proof.
  cbv zeta.
  apply (signMessage_address_not_found (sampleWallet 1 0) "0xdeadbeef"
           "0x0000000000000000000000000000000000000000" fresh).
  intros k Hk.
  do 10 (destruct k as [|k]; [eexists; split; [reflexivity | discriminate]|]).
  lia.
Defined.

(** X11. The requested address is matched without regard to case: two
    spellings of [from] that lower-case to the same text lead to the same
    requests and the same report. *)
Theorem signMessage_from_case_insensitive (this : LedgerWallet)
    (message s1 s2 : string) (w : World string) :
  Js.toLowerCase s1 = Js.toLowerCase s2 ->
  signPersonalMessageAsync this {| data := message; from := Some s1 |} w =
  signPersonalMessageAsync this {| data := message; from := Some s2 |} w.
Proof.
  intros Hlow.
  unfold signPersonalMessageAsync, try_catch, bind.
  change (resolveAddressIndex this {| data := message; from := Some s1 |} w)
    with (findAddressIndex_loop this s1 10 0 w).
  change (resolveAddressIndex this {| data := message; from := Some s2 |} w)
    with (findAddressIndex_loop this s2 10 0 w).
  now rewrite (findAddressIndex_loop_lower this s1 s2 Hlow).
Qed.

Lemma signMessage_from_case_insensitive_witness :
  signPersonalMessageAsync (sampleWallet 1 0)
    {| data := "0xdeadbeef"; from := Some "0XE834EC434DABA538CD1B9FE1582052B880BD7E63" |}
    fresh =
  signPersonalMessageAsync (sampleWallet 1 0)
    {| data := "0xdeadbeef"; from := Some "0xe834ec434daba538cd1b9fe1582052b880bd7e63" |}
    fresh.
Proof.
  exact (signMessage_from_case_insensitive (sampleWallet 1 0) "0xdeadbeef"
           "0XE834EC434DABA538CD1B9FE1582052B880BD7E63"
           "0xe834ec434daba538cd1b9fe1582052b880bd7e63" fresh eq_refl).
Defined.

(** X12. With path index 0 the signature is requested for the sender: when
    the search returns [n], the probe of index [n] itself answered with an
    address equal to [from] up to case, and the requests that follow the
    probes are the address request at [{path}/{n}] and then, if that one
    succeeds, the signature request at [{path}/{n}]. *)
Theorem signMessage_signs_for_sender_at_index_zero (this : LedgerWallet)
    (message sender : string) (w w1 : World string) (n : N) :
  let path := path_of (_derivationPath this) n in
  let out := snd (signPersonalMessageAsync this
                    {| data := message; from := Some sender |} w) in
  _derivationPathIndex this = 0%N ->
  resolveAddressIndex this {| data := message; from := Some sender |} w = (inr n, w1) ->
  (exists a,
     addressAnswer this (requests w ++ windowFrom this 0 (N.to_nat n)) n = inr a /\
     Js.toLowerCase sender = Js.toLowerCase (AddressResult.address a)) /\
  exists tail,
    requests out =
      requests w ++ windowFrom this 0 (S (N.to_nat n)) ++ addressRequest this n :: tail /\
    (tail = [] \/ tail = [SignPersonalMessage path (Js.stripHexPrefix message)]).
Proof.
  intros path out Hzero Hres. subst out.
  pose proof Hres as Hloop.
  change (resolveAddressIndex this {| data := message; from := Some sender |} w)
    with (findAddressIndex_loop this sender 10 0 w) in Hloop.
  apply findAddressIndex_loop_first_match in Hloop
    as (k & _ & Hn & (a & Ha & Hm) & _ & Hrq & _).
  rewrite Hzero, !N.add_0_l in *. rewrite N.add_0_r in Ha.
  subst n. rewrite Nat2N.id. split.
  - exists a. auto.
  - rewrite (signPersonalMessageAsync_resolved this _ w w1 _ Hres).
    destruct (addressAnswer this (requests w1) (N.of_nat k)) as [err|a']; simpl.
    + exists []. rewrite Hrq, <- app_assoc. auto.
    + destruct (signPersonalMessage_async _ _ _ _) as [err|result]; simpl;
        (eexists; split; [rewrite Hrq, <- !app_assoc; reflexivity | now right]).
Qed.

Lemma signMessage_signs_for_sender_at_index_zero_witness :
  let out := snd (signPersonalMessageAsync (sampleWallet 1 0)
                    {| data := "0xdeadbeef";
                       from := Some "0xe834ec434daba538cd1b9fe1582052b880bd7e63" |}
                    fresh) in
  exists tail,
    requests out =
      windowFrom (sampleWallet 1 0) 0 4 ++ addressRequest (sampleWallet 1 0) 3 :: tail /\
    (tail = [] \/ tail = [SignPersonalMessage "44'/60'/0'/3" "deadbeef"]).
Proof.
  exact (proj2 (signMessage_signs_for_sender_at_index_zero (sampleWallet 1 0)
                  "0xdeadbeef" "0xe834ec434daba538cd1b9fe1582052b880bd7e63" fresh
                  (snd (resolveAddressIndex (sampleWallet 1 0)
                          {| data := "0xdeadbeef";
                             from := Some "0xe834ec434daba538cd1b9fe1582052b880bd7e63" |}
                          fresh))
                  3 eq_refl eq_refl)).
Defined.

(** X13. Whatever the device does, [signMessage] resolves and invokes the
    callback exactly once; it sends at most ten probes (none without
    [from]), then at most one address request and one signature request at
    the same path, the signature request last. *)
Theorem signMessage_every_outcome (this : LedgerWallet)
    (msgParams : SignPersonalMessageParams) (w : World string) :
  let run := signPersonalMessageAsync this msgParams w in
  fst run = inr tt /\
  (exists report, callbacks (snd run) = callbacks w ++ [report]) /\
  exists (k : nat) (tail : list DeviceRequest),
    (k <= 10)%nat /\
    (from msgParams = None -> k = 0%nat) /\
    requests (snd run) =
      requests w ++ windowFrom this (_derivationPathIndex this) k ++ tail /\
    (tail = [] \/
     exists n,
       tail = [addressRequest this n] \/
       tail = [addressRequest this n;
               SignPersonalMessage (path_of (_derivationPath this) n)
                 (Js.stripHexPrefix (data msgParams))]).
Proof.
  cbv zeta.
  assert (Hprobe : exists k,
            (k <= 10)%nat /\ (from msgParams = None -> k = 0%nat) /\
            callbacks (snd (resolveAddressIndex this msgParams w)) = callbacks w /\
            requests (snd (resolveAddressIndex this msgParams w)) =
            requests w ++ windowFrom this (_derivationPathIndex this) k).
  { unfold resolveAddressIndex, findAddressIndex.
    destruct (from msgParams) as [sender|].
    - destruct (findAddressIndex_loop_window this sender 10 0 w (R := string))
        as [Hcb (k & Hk & _ & Hrq)].
      rewrite N.add_0_l in Hrq. exists k.
      split; [exact Hk|]. split; [discriminate|]. split; assumption.
    - exists 0%nat. simpl. rewrite app_nil_r.
      split; [lia|]. split; [reflexivity|]. split; reflexivity. }
  destruct Hprobe as (k & Hk & Hnone & Hcb & Hrq).
  destruct (resolveAddressIndex this msgParams w) as [[err|n] w1] eqn:Hres;
    simpl in Hcb, Hrq.
  - rewrite (signPersonalMessageAsync_unresolved this msgParams w w1 err Hres).
    simpl. split; [reflexivity|]. split.
    + rewrite Hcb. eexists. reflexivity.
    + exists k, []. rewrite app_nil_r. auto.
  - rewrite (signPersonalMessageAsync_resolved this msgParams w w1 n Hres).
    destruct (addressAnswer this (requests w1) n) as [err|a]; simpl.
    + split; [reflexivity|]. split.
      * rewrite Hcb. eexists. reflexivity.
      * exists k, [addressRequest this n].
        rewrite Hrq, <- app_assoc. repeat split; auto. right. exists n. now left.
    + destruct (signPersonalMessage_async _ _ _ _) as [err|result]; simpl;
        (split; [reflexivity|]; split;
         [rewrite Hcb; eexists; reflexivity|];
         exists k, [addressRequest this n;
                    SignPersonalMessage (path_of (_derivationPath this) n)
                      (Js.stripHexPrefix (data msgParams))];
         rewrite Hrq, <- !app_assoc; repeat split; auto;
         right; exists n; now right).
Qed.

(** X14. Accounts that [getAccounts] lists can sign: with path index 0 and a
    device whose addresses are stable, [signMessage] with [from] set to any
    listed account requests the signature at an index whose address
    lower-cases to that account. *)
Theorem listed_account_can_sign (this : LedgerWallet) (w : World (list string))
    (accounts : list string) (account message : string) (w2 : World string) :
  let out := snd (signPersonalMessageAsync this
                    {| data := message; from := Some account |} w2) in
  _derivationPathIndex this = 0%N ->
  stableAddresses (_ledgerEthConnection this) ->
  callbacks (snd (getAccountsAsync this w)) = callbacks w ++ [(None, Some accounts)] ->
  In account accounts ->
  exists (n : N) (a : AddressResult.t),
    (forall h, addressAnswer this h n = inr a) /\
    Js.toLowerCase (AddressResult.address a) = account /\
    exists probes,
      requests out =
      requests w2 ++ probes ++
      [addressRequest this n;
       SignPersonalMessage (path_of (_derivationPath this) n)
         (Js.stripHexPrefix message)].
Proof.
  intros out Hzero Hstable Hcb Hin. subst out.
  assert (Hst : forall h h' n, addressAnswer this h n = addressAnswer this h' n).
  { intros h h' n. unfold addressAnswer. apply Hstable. }
  unfold getAccountsAsync, NUM_ADDRESSES_TO_FETCH in Hcb.
  rewrite getAccounts_loop_step in Hcb. cbv zeta in Hcb.
  rewrite Hzero in Hcb. change (0 + 0)%N with 0%N in Hcb.
  destruct (addressAnswer this (requests w) 0) as [e|a0] eqn:H0.
  { simpl in Hcb. apply app_inv_head in Hcb. discriminate Hcb. }
  rewrite getAccounts_loop_step in Hcb. cbv zeta in Hcb.
  rewrite Hzero in Hcb. change (0 + 1 + 0)%N with 1%N in Hcb.
  destruct (addressAnswer this _ 1) as [e|a1] eqn:H1.
  { simpl in Hcb. apply app_inv_head in Hcb. discriminate Hcb. }
  simpl in Hcb. apply app_inv_head in Hcb. inversion Hcb; subst accounts. clear Hcb.
  assert (Hres : exists n a w3,
            resolveAddressIndex this {| data := message; from := Some account |} w2
              = (inr n, w3) /\
            (forall h, addressAnswer this h n = inr a) /\
            Js.toLowerCase (AddressResult.address a) = account).
  { change (resolveAddressIndex this {| data := message; from := Some account |} w2)
      with (findAddressIndex_loop this account 10 0 w2).
    rewrite findAddressIndex_loop_step. cbv zeta.
    rewrite Hzero. change (0 + 0)%N with 0%N.
    rewrite (Hst (requests w2) (requests w) 0%N), H0.
    destruct (String.eqb (Js.toLowerCase account)
                (Js.toLowerCase (AddressResult.address a0))) eqn:Hm.
    - apply String.eqb_eq in Hm.
      exists 0%N, a0. eexists. split; [reflexivity|]. split.
      + intros h. now rewrite (Hst h (requests w) 0%N).
      + destruct Hin as [<-|[<-|[]]].
        * reflexivity.
        * now rewrite toLowerCase_idempotent in Hm.
    - apply String.eqb_neq in Hm.
      destruct Hin as [<-|[<-|[]]].
      + now rewrite toLowerCase_idempotent in Hm.
      + rewrite findAddressIndex_loop_step. cbv zeta.
        rewrite Hzero. change (0 + 1 + 0)%N with 1%N.
        rewrite (Hst _ (requests (sent (addressRequest this 0) w)) 1%N), H1.
        rewrite toLowerCase_idempotent, String.eqb_refl.
        exists 1%N, a1. eexists. split; [reflexivity|]. split; [|reflexivity].
        intros h. now rewrite (Hst h (requests (sent (addressRequest this 0) w)) 1%N). }
  destruct Hres as (n & a & w3 & Hres & Hall & Hlow).
  exists n, a. split; [exact Hall|]. split; [exact Hlow|].
  destruct (resolveAddressIndex_frame this
              {| data := message; from := Some account |} w2) as [_ [probes Hp]].
  rewrite Hres in Hp. simpl in Hp.
  rewrite (signPersonalMessageAsync_resolved this _ w2 w3 n Hres).
  rewrite Hall. exists probes.
  destruct (signPersonalMessage_async _ _ _ _); simpl;
    rewrite Hp, <- !app_assoc; reflexivity.
Qed.

Lemma sampleDevice_stable : stableAddresses sampleDevice.
Proof. intros h h' path ask chain. reflexivity. Qed.

Lemma listed_account_can_sign_witness :
  exists (n : N) (a : AddressResult.t),
    Js.toLowerCase (AddressResult.address a) =
      "0x6ecbe1db9ef729cbe972c83fb886247691fb6beb" /\
    exists probes,
      requests (snd (signPersonalMessageAsync (sampleWallet 1 0)
                       {| data := "0xdeadbeef";
                          from := Some "0x6ecbe1db9ef729cbe972c83fb886247691fb6beb" |}
                       fresh)) =
      probes ++
      [addressRequest (sampleWallet 1 0) n;
       SignPersonalMessage (path_of "44'/60'/0'" n) "deadbeef"].
Proof.
  destruct (listed_account_can_sign (sampleWallet 1 0) fresh
              ["0x5409ed021d9299bf6814279a6a1411a7e866a631";
               "0x6ecbe1db9ef729cbe972c83fb886247691fb6beb"]
              "0x6ecbe1db9ef729cbe972c83fb886247691fb6beb" "0xdeadbeef" fresh
              eq_refl sampleDevice_stable eq_refl (or_intror (or_introl eq_refl)))
    as (n & a & _ & Hlow & probes & Hrq).
  exists n, a. split; [exact Hlow|]. exists probes. exact Hrq.
Defined.

(** ** The recovery number outside the two-digit cases *)

(** X15. The suffix of the message signature where it is not two hex
    digits: a [v] that does not read as a number gives [NaN]; a [v] from 0
    to 26 gives a minus sign followed by the hex of [27 - v]; a [v] from 37
    to 42 gives [0] followed by [v - 27] in decimal, three characters. *)
Theorem messageSignature_irregular_suffix (result : Signature.t) :
  let r := Signature.r result in
  let s := Signature.s result in
  (Js.parseInt (Signature.v result) = Js.NaN ->
   messageSignature result = "0x" +:+ r +:+ s +:+ "NaN") /\
  (forall n, Js.parseInt (Signature.v result) = Js.Int n -> (0 <= n <= 26)%Z ->
     messageSignature result =
     "0x" +:+ r +:+ s +:+ "-" +:+ Js.toString16 (Js.Int (27 - n))) /\
  (forall n, Js.parseInt (Signature.v result) = Js.Int n -> (37 <= n <= 42)%Z ->
     messageSignature result = "0x" +:+ r +:+ s +:+ "0" +:+ Js.string_of_Z (n - 27) /\
     String.length (normalizedV (Signature.v result)) = 3%nat).
Proof.
  cbv zeta. unfold messageSignature.
  split; [|split].
  - intros Hnan. unfold normalizedV. now rewrite Hnan.
  - intros n Hparse Hn. do 3 f_equal. unfold normalizedV. rewrite Hparse. simpl Js.minus.
    assert (Hall : forallb
              (fun m => let k := Z.of_nat m in
                        String.eqb
                          (let vHex := Js.toString16 (Js.Int (k - 27)) in
                           if (String.length vHex <? 2)%nat
                           then "0" +:+ Js.toString10 (Js.Int (k - 27)) else vHex)
                          ("-" +:+ Js.toString16 (Js.Int (27 - k))))
              (seq 0 27) = true) by (vm_compute; reflexivity).
    rewrite forallb_forall in Hall.
    specialize (Hall (Z.to_nat n) ltac:(apply in_seq; lia)).
    cbv zeta in Hall. rewrite Z2Nat.id in Hall by lia.
    now apply String.eqb_eq in Hall.
  - intros n Hparse Hn. unfold normalizedV. rewrite Hparse. simpl Js.minus.
    assert (Hall : forallb
              (fun m => let k := Z.of_nat m in
                        let text :=
                          (let vHex := Js.toString16 (Js.Int (k - 27)) in
                           if (String.length vHex <? 2)%nat
                           then "0" +:+ Js.toString10 (Js.Int (k - 27)) else vHex) in
                        String.eqb text ("0" +:+ Js.string_of_Z (k - 27)) &&
                        (String.length text =? 3)%nat)
              (seq 37 6) = true) by (vm_compute; reflexivity).
    rewrite forallb_forall in Hall.
    specialize (Hall (Z.to_nat n) ltac:(apply in_seq; lia)).
    cbv zeta in Hall. rewrite Z2Nat.id in Hall by lia.
    apply andb_true_iff in Hall as [Ht Hl].
    apply String.eqb_eq in Ht. apply Nat.eqb_eq in Hl.
    split; [now do 3 f_equal | exact Hl].
Qed.

Lemma messageSignature_irregular_suffix_witness :
  messageSignature {| Signature.r := "aa"; Signature.s := "bb"; Signature.v := "" |}
    = "0xaabbNaN" /\
  messageSignature {| Signature.r := "aa"; Signature.s := "bb"; Signature.v := "1" |}
    = "0xaabb-1a" /\
  messageSignature {| Signature.r := "aa"; Signature.s := "bb"; Signature.v := "40" |}
    = "0xaabb013".
Proof.
  split; [|split].
  - exact (proj1 (messageSignature_irregular_suffix
                    {| Signature.r := "aa"; Signature.s := "bb"; Signature.v := "" |})
             eq_refl).
  - exact (proj1 (proj2 (messageSignature_irregular_suffix
                    {| Signature.r := "aa"; Signature.s := "bb"; Signature.v := "1" |}))
             1%Z eq_refl ltac:(lia)).
  - exact (proj1 (proj2 (proj2 (messageSignature_irregular_suffix
                    {| Signature.r := "aa"; Signature.s := "bb"; Signature.v := "40" |}))
             40%Z eq_refl ltac:(lia))).
Defined.

(** ** Across operations *)

(** X18. [signTransaction] signs with the key of the first account that
    [getAccounts] lists: the first address request of [getAccounts] and the
    signing request of [signTransaction] carry the same derivation path,
    [{path}/{pathIndex}]. *)
Theorem signTransaction_uses_first_listed_path (TxParams : Type)
    (EthereumTx_new : TxParams -> list Js.Buffer)
    (serialize : list Js.Buffer -> Js.Buffer)
    (this : LedgerWallet) (txParams : TxParams)
    (w : World (list string)) (w' : World string) :
  exists (rest : list DeviceRequest) (txHex : string),
    requests (snd (getAccountsAsync this w)) =
      requests w ++
      GetAddress (getDerivationPath this)
        (_shouldAlwaysAskForConfirmation this) (_shouldGetChainCode this) :: rest /\
    requests (snd (signTransactionAsync TxParams EthereumTx_new serialize
                     this txParams w')) =
      requests w' ++ [SignTransaction (getDerivationPath this) txHex].
Proof.
  destruct (getAccounts_first_request this w) as [rest Hrest].
  exists rest. eexists. split.
  - exact Hrest.
  - apply signTransactionAsync_request.
Qed.

(** ** Hex text *)

(** X19. The hex text sent to the device for signature decodes back to
    exactly the serialised unsigned transaction, whatever its bytes. *)
Theorem signTransaction_request_decodes (TxParams : Type)
    (EthereumTx_new : TxParams -> list Js.Buffer)
    (serialize : list Js.Buffer -> Js.Buffer)
    (this : LedgerWallet) (txParams : TxParams) (w : World string) :
  exists txHex,
    requests (snd (signTransactionAsync TxParams EthereumTx_new serialize
                     this txParams w)) =
      requests w ++ [SignTransaction (getDerivationPath this) txHex] /\
    Js.Buffer_from_hex txHex =
      serialize (unsignedTx TxParams EthereumTx_new this txParams).
Proof.
  eexists. split.
  - apply signTransactionAsync_request.
  - apply Buffer_hex_roundtrip.
Qed.

(** ** Every request after the setters *)


(** The requests of [signMessage] with [from] set: the probes, then
    nothing, or the address request and at most the signature request at
    the path numbered by the last probe. *)
Lemma signMessage_requests_from (this : LedgerWallet) (message sender : string)
    (w : World string) :
  exists (k : nat) (tail : list DeviceRequest),
    (1 <= k <= 10)%nat /\
    requests (snd (signPersonalMessageAsync this
                     {| data := message; from := Some sender |} w)) =
      requests w ++ windowFrom this (_derivationPathIndex this) k ++ tail /\
    (tail = [] \/
     tail = [addressRequest this (N.of_nat (k - 1))] \/
     tail = [addressRequest this (N.of_nat (k - 1));
             SignPersonalMessage (path_of (_derivationPath this) (N.of_nat (k - 1)))
               (Js.stripHexPrefix message)]).
Proof.
  destruct (resolveAddressIndex this {| data := message; from := Some sender |} w)
    as [[err|n] w1] eqn:Hres.
  - rewrite (signPersonalMessageAsync_unresolved this _ w w1 err Hres).
    change (resolveAddressIndex this {| data := message; from := Some sender |} w)
      with (findAddressIndex_loop this sender 10 0 w) in Hres.
    destruct (findAddressIndex_loop_window this sender 10 0 w (R := string))
      as [_ (k & Hk & Hpos & Hrq)].
    rewrite Hres, N.add_0_l in Hrq. simpl in Hrq.
    exists k, []. rewrite app_nil_r. simpl.
    split; [lia|]. split; [exact Hrq | now left].
  - rewrite (signPersonalMessageAsync_resolved this _ w w1 n Hres).
    change (resolveAddressIndex this {| data := message; from := Some sender |} w)
      with (findAddressIndex_loop this sender 10 0 w) in Hres.
    apply findAddressIndex_loop_first_match in Hres
      as (k & Hk & Hn & _ & _ & Hrq & _).
    rewrite N.add_0_l in Hn, Hrq. subst n.
    exists (S k).
    replace (S k - 1)%nat with k by lia.
    destruct (addressAnswer this (requests w1) (N.of_nat k)) as [err|a]; simpl.
    + exists [addressRequest this (N.of_nat k)].
      split; [lia|]. split; [now rewrite Hrq, <- app_assoc|].
      right. now left.
    + exists [addressRequest this (N.of_nat k);
              SignPersonalMessage (path_of (_derivationPath this) (N.of_nat k))
                (Js.stripHexPrefix message)].
      split; [lia|]. split.
      * destruct (signPersonalMessage_async _ _ _ _); simpl;
          now rewrite Hrq, <- !app_assoc.
      * right. now right.
Qed.

(** The requests of [signMessage] without [from]. *)
Lemma signMessage_requests_default (this : LedgerWallet) (message : string)
    (w : World string) :
  let out := snd (signPersonalMessageAsync this
                    {| data := message; from := None |} w) in
  requests out = requests w ++ [addressRequest this 0] \/
  requests out =
    requests w ++
    [addressRequest this 0;
     SignPersonalMessage (path_of (_derivationPath this) 0) (Js.stripHexPrefix message)].
Proof.
  cbv zeta.
  rewrite (signPersonalMessageAsync_resolved this
             {| data := message; from := None |} w w 0 eq_refl).
  destruct (addressAnswer this (requests w) 0); simpl; [now left|].
  destruct (signPersonalMessage_async _ _ _ _); simpl;
    rewrite <- app_assoc; now right.
Qed.



(** X16. Setters never touch the rest of the configuration: after any
    sequence of [setPath] and [setPathIndex] calls the adapter still has the
    chain id and the device connection of its construction, every request
    that [getAccounts] sends is an address request with the confirmation
    flag the configuration asked for and the chain-code flag [false], and
    every request that [signMessage] sends is such an address request or a
    signature request. *)
Theorem setters_preserve_configuration (config : LedgerSubproviderConfigs)
    (calls : list SetterCall) :
  let this := fold_left applySetter calls (new_LedgerWallet config) in
  let ask := match shouldAskForOnDeviceConfirmation config with
             | Some b => b
             | None => false
             end in
  let configured := fun q : DeviceRequest => exists path, q = GetAddress path ask false in
  _network this = networkId config /\
  _ledgerEthConnection this = ledgerConnection config /\
  (forall w, exists sentNow,
     requests (snd (getAccountsAsync this w)) = requests w ++ sentNow /\
     sentNow <> [] /\
     Forall configured sentNow) /\
  (forall msgParams w, exists sentNow,
     requests (snd (signPersonalMessageAsync this msgParams w)) = requests w ++ sentNow /\
     sentNow <> [] /\
     Forall (fun q => configured q \/
                      exists path, q = SignPersonalMessage path
                                         (Js.stripHexPrefix (data msgParams)))
            sentNow).
Proof.
  intros this ask configured.
  assert (Hask : _shouldAlwaysAskForConfirmation this = ask).
  { subst this ask. rewrite applySetters_state. simpl.
    now destruct (shouldAskForOnDeviceConfirmation config) as [[]|]. }
  assert (Hchain : _shouldGetChainCode this = false).
  { subst this. now rewrite applySetters_state. }
  assert (Hreq : forall n, configured (addressRequest this n)).
  { intros n. exists (path_of (_derivationPath this) n).
    unfold addressRequest. now rewrite Hask, Hchain. }
  assert (Hwin : forall first k, Forall configured (windowFrom this first k)).
  { intros first k. revert first.
    induction k as [|k IH]; intros first; simpl; constructor; auto. }
  split; [subst this; now rewrite applySetters_state|].
  split; [subst this; now rewrite applySetters_state|].
  split.
  - intros w.
    destruct (getAccounts_loop_shape this NUM_ADDRESSES_TO_FETCH 0 [] w)
      as (_ & (k & Hk & Hpos & Hrq) & _).
    eexists. split; [exact Hrq|]. split; [|apply Hwin].
    unfold NUM_ADDRESSES_TO_FETCH in Hpos.
    destruct k as [|k]; [lia | discriminate].
  - intros [message [sender|]] w.
    + destruct (signMessage_requests_from this message sender w)
        as (k & tail & Hk & Hrq & Htail).
      exists (windowFrom this (_derivationPathIndex this) k ++ tail).
      split; [exact Hrq|].
      assert (Hprobe : forall l, Forall configured l ->
                Forall (fun q => configured q \/
                          exists path, q = SignPersonalMessage path
                                             (Js.stripHexPrefix message)) l).
      { intros l Hl. eapply Forall_impl; [exact Hl|]. intros q Hq. now left. }
      assert (Hne : forall l, windowFrom this (_derivationPathIndex this) k ++ l <> []).
      { intros l. destruct k as [|k]; [lia | discriminate]. }
      destruct Htail as [->|[->| ->]].
      * split; [apply Hne|]. rewrite app_nil_r. apply Hprobe, Hwin.
      * split; [apply Hne|].
        apply Forall_app. split; [apply Hprobe, Hwin|].
        constructor; [left; apply Hreq | constructor].
      * split; [apply Hne|].
        apply Forall_app. split; [apply Hprobe, Hwin|].
        constructor; [left; apply Hreq|].
        constructor; [right; eexists; reflexivity | constructor].
    + destruct (signMessage_requests_default this message w) as [H|H];
        cbv zeta in H; (eexists; split; [exact H|]; split; [discriminate|]).
      * constructor; [left; apply Hreq | constructor].
      * constructor; [left; apply Hreq|].
        constructor; [right; eexists; reflexivity | constructor].
Qed.
